(** * Replaying an oplog into a destination store

    A shallow embedding of [oplogreplay/oplogreplayer.py]: the class
    [OplogReplayer], which applies the write operations logged by one Mongo
    deployment to another and keeps, inside the destination, the timestamp
    of the last operation it replayed.

    The Python methods become functions in a state-and-exception monad over
    a record holding the attributes of the replayer object together with the
    destination server it talks to.  The destination is a small document
    store: collections are lists of documents in insertion order, addressed
    by database and collection name. *)

From stdpp Require Import gmap strings list fin_maps.
From Stdlib Require Import ZArith Lia Ascii Sorted.

Set Warnings "-register-all".
Local Open Scope Z_scope.

(** ** Documents *)

(** The BSON values that occur in oplog entries and in the settings
    collection.  A document is an ordered list of named fields. *)
Inductive value :=
| VNone
| VBool (b : bool)
| VInt (n : Z)
| VStr (s : string)
| VObjectId (oid : Z)
| VTimestamp (time inc : Z)
| VDoc (fields : list (string * value)).

Abbreviation doc := (list (string * value)).

Fixpoint value_eqb (a b : value) {struct a} : bool :=
  match a, b with
  | VNone, VNone => true
  | VBool x, VBool y => Bool.eqb x y
  | VInt x, VInt y => Z.eqb x y
  | VStr x, VStr y => String.eqb x y
  | VObjectId x, VObjectId y => Z.eqb x y
  | VTimestamp t i, VTimestamp t' i' => Z.eqb t t' && Z.eqb i i'
  | VDoc fa, VDoc fb =>
      (fix fields_eqb (l1 l2 : doc) {struct l1} : bool :=
         match l1, l2 with
         | [], [] => true
         | (k1, v1) :: r1, (k2, v2) :: r2 =>
             String.eqb k1 k2 && value_eqb v1 v2 && fields_eqb r1 r2
         | _, _ => false
         end) fa fb
  | _, _ => false
  end.

(** [d[k]] on a dict, [None] when the key is absent. *)
Fixpoint doc_get (k : string) (d : doc) : option value :=
  match d with
  | [] => None
  | (k', v) :: r => if String.eqb k' k then Some v else doc_get k r
  end.

(** [d[k] = v]: overwrite in place, or add the field at the end. *)
Fixpoint doc_set (k : string) (v : value) (d : doc) : doc :=
  match d with
  | [] => [(k, v)]
  | (k', v') :: r =>
      if String.eqb k' k then (k', v) :: r else (k', v') :: doc_set k v r
  end.

Definition doc_has (k : string) (d : doc) : bool :=
  match doc_get k d with Some _ => true | None => false end.

(** [c in s]. *)
Fixpoint contains (c : ascii) (s : string) : bool :=
  match s with
  | EmptyString => false
  | String a r => Ascii.eqb a c || contains c r
  end.

(** ** The destination server

    What [pymongo.Connection(dest)] is connected to.  [rejections] is the
    server's verdict on the writes still to come, first write first: [true]
    when the server refuses the write whatever its content (a quota is
    exhausted, the client may not write there); writes beyond the end of
    the list are accepted.  [next_oid] numbers the ObjectIds
    generated for documents that come without an [_id]. *)
Record mongod := {
  colls : gmap (string * string) (list doc);
  next_oid : Z;
  rejections : list bool;
}.

(** The exceptions that can leave a method of the replayer: Python's own,
    the driver's, and the fatal condition of a record of unknown kind. *)
Inductive exn :=
| ValueError
| KeyError (k : string)
| AttributeError
| TypeError
| DuplicateKeyError
| OperationFailure
| InvalidName
| UnknownOperation (op : string).

Definition the_docs (coll : string * string) (s : mongod) : list doc :=
  default [] (colls s !! coll).

Definition set_docs (coll : string * string) (docs : list doc) (s : mongod)
  : mongod :=
  {| colls := <[coll := docs]> (colls s);
     next_oid := next_oid s;
     rejections := rejections s |}.

(** A selector of equality conditions, as the oplog's [o2] and the [o] of a
    delete are: every field of the selector is in the document with that
    value; a [null] condition also holds of a document without the field. *)
Definition field_matches (d : doc) (kv : string * value) : bool :=
  match doc_get kv.1 d with
  | Some v => value_eqb v kv.2
  | None => value_eqb kv.2 VNone
  end.

Definition matches (spec d : doc) : bool := forallb (field_matches d) spec.

Definition same_id (i : value) (d : doc) : bool :=
  match doc_get "_id" d with
  | Some j => value_eqb j i
  | None => false
  end.

Definition is_operator (k : string) : bool :=
  match k with
  | String c _ => Ascii.eqb c "$"%char
  | EmptyString => false
  end.

Definition apply_set (fields d : doc) : doc :=
  fold_left (fun acc kv => doc_set kv.1 kv.2 acc) fields d.

(** The name of a top-level field: no operator and no dotted path. *)
Definition plain_key (k : string) : bool :=
  negb (is_operator k) && negb (contains "." k).

(** The document that an update document [md] makes of [d]: a [$set] of
    some top-level fields, or, when [md] names no operator, [md] itself in
    place of [d], under the [_id] of [d].  This is the fragment of the
    server's updates that is modelled; for an update document outside of
    it (another operator, several operators, a dotted path) there is no
    result ([None]), and what the properties below say of the documents
    an update writes is said of update documents of the fragment. *)
Definition apply_mod (md d : doc) : option doc :=
  if existsb (fun kv => is_operator kv.1) md then
    match md with
    | [(op, VDoc fields)] =>
        if String.eqb op "$set" && forallb (fun kv => plain_key kv.1) fields
        then Some (apply_set fields d)
        else None
    | _ => None
    end
  else if forallb (fun kv => plain_key kv.1) md then
    Some (match doc_get "_id" d with
          | Some i => if doc_has "_id" md then md else ("_id", i) :: md
          | None => md
          end)
  else None.

(** The update documents of the fragment. *)
Definition plain_update (md : doc) : bool :=
  match md with
  | [(op, VDoc fields)] =>
      if is_operator op
      then String.eqb op "$set" && forallb (fun kv => plain_key kv.1) fields
      else plain_key op
  | _ => forallb (fun kv => plain_key kv.1) md
  end.

(** The selectors that [matches] reads as the server does: equalities on
    top-level fields, the value no document of operators. *)
Definition equality_selector (spec : doc) : bool :=
  forallb (fun kv =>
             plain_key kv.1
             && match kv.2 with
                | VDoc fields => negb (existsb (fun f => is_operator f.1) fields)
                | _ => true
                end) spec.

Definition option_value_eqb (a b : option value) : bool :=
  match a, b with
  | Some x, Some y => value_eqb x y
  | None, None => true
  | _, _ => false
  end.

(** The server's side of a write: the error it would report to
    [getLastError], and its state afterwards. *)
Definition srv_insert (coll : string * string) (d : doc) (s : mongod)
  : option exn * mongod :=
  let docs := the_docs coll s in
  match doc_get "_id" d with
  | Some i =>
      if existsb (same_id i) docs then (Some DuplicateKeyError, s)
      else (None, set_docs coll (docs ++ [d]) s)
  | None =>
      let d' := ("_id", VObjectId (next_oid s)) :: d in
      let s' := {| colls := colls s; next_oid := next_oid s + 1;
                   rejections := rejections s |} in
      if existsb (same_id (VObjectId (next_oid s))) docs
      then (Some DuplicateKeyError, s')
      else (None, set_docs coll (docs ++ [d']) s')
  end.

(** Rewrite the first document that satisfies [spec] ([multi] is off). *)
Fixpoint update_first (spec md : doc) (docs : list doc)
  : option (option exn * list doc) :=
  match docs with
  | [] => None
  | d :: r =>
      if matches spec d then
        Some (match apply_mod md d with
              | Some d' =>
                  if option_value_eqb (doc_get "_id" d') (doc_get "_id" d)
                  then (None, d' :: r)
                  else (Some OperationFailure, d :: r)
              | None => (Some OperationFailure, d :: r)
              end)
      else
        match update_first spec md r with
        | Some (e, r') => Some (e, d :: r')
        | None => None
        end
  end.

(** An update without [multi]: the first match is rewritten; without a
    match, an upsert inserts what the update makes of the selector, and a
    plain update does nothing. *)
Definition srv_update (coll : string * string) (spec md : doc) (upsert : bool)
    (s : mongod) : option exn * mongod :=
  match update_first spec md (the_docs coll s) with
  | Some (e, docs') =>
      (e, match e with None => set_docs coll docs' s | Some _ => s end)
  | None =>
      if upsert then
        match apply_mod md spec with
        | Some d => srv_insert coll d s
        | None => (Some OperationFailure, s)
        end
      else (None, s)
  end.

(** A remove deletes every match; a collection that does not exist is not
    created. *)
Definition srv_remove (coll : string * string) (spec : doc) (s : mongod)
  : option exn * mongod :=
  match colls s !! coll with
  | Some docs =>
      (None, set_docs coll (List.filter (fun d => negb (matches spec d)) docs) s)
  | None => (None, s)
  end.

(** The verdict on the write that arrives now. *)
Definition next_verdict (s : mongod) : bool * mongod :=
  match rejections s with
  | [] => (false, s)
  | b :: r =>
      (b, {| colls := colls s; next_oid := next_oid s; rejections := r |})
  end.

(** A write arrives at the server: refused, or carried out. *)
Definition srv_write (w : mongod -> option exn * mongod) (s : mongod)
  : option exn * mongod :=
  let (rejected, s1) := next_verdict s in
  if rejected then (Some OperationFailure, s1) else w s1.

(** The server accepts every write that is still to come. *)
Definition healthy (s : mongod) : bool := forallb negb (rejections s).

(** ** The replayer object and its environment *)

(** The two lines [print_replication_info] hands to [logging.debug]:
    ['synced = %ssecs ago (%.2fhrs)'], whose hours are the same delay over
    [3600.0], and ['[%s] replayed %s ops'] with the time of day. *)
Inductive log_record :=
| Synced (delay : Z)
| Replayed (at_time : Z) (ops : Z).

(** The attributes of [self] that the replayer reads and writes, the
    server behind [self.dest], the wall clock in whole seconds (what
    [int(time.time())] reads) and the debug log. *)
Record state := {
  _lastts_id : string;
  ts : value;
  _replay_count : Z;
  dest : mongod;
  clock : Z;
  debug_log : list log_record;
}.

Definition set_dest (s : mongod) (st : state) : state :=
  {| _lastts_id := _lastts_id st; ts := ts st;
     _replay_count := _replay_count st; dest := s;
     clock := clock st; debug_log := debug_log st |}.

Definition set_ts (v : value) (st : state) : state :=
  {| _lastts_id := _lastts_id st; ts := v;
     _replay_count := _replay_count st; dest := dest st;
     clock := clock st; debug_log := debug_log st |}.

Definition set_replay_count (n : Z) (st : state) : state :=
  {| _lastts_id := _lastts_id st; ts := ts st;
     _replay_count := n; dest := dest st;
     clock := clock st; debug_log := debug_log st |}.

Definition add_log (r : log_record) (st : state) : state :=
  {| _lastts_id := _lastts_id st; ts := ts st;
     _replay_count := _replay_count st; dest := dest st;
     clock := clock st; debug_log := debug_log st ++ [r] |}.

(** A method either returns or raises; what it did to the state stays done
    in both cases. *)
Inductive outcome (A : Type) :=
| Ok (a : A)
| Raise (e : exn).
Arguments Ok {A} a.
Arguments Raise {A} e.

Definition M (A : Type) : Type := state -> outcome A * state.

Definition ret {A} (a : A) : M A := fun st => (Ok a, st).

Definition raise {A} (e : exn) : M A := fun st => (Raise e, st).

Definition bind {A B} (m : M A) (k : A -> M B) : M B :=
  fun st =>
    match m st with
    | (Ok a, st') => k a st'
    | (Raise e, st') => (Raise e, st')
    end.

Definition gets {A} (f : state -> A) : M A := fun st => (Ok (f st), st).

Definition modify (f : state -> state) : M unit := fun st => (Ok tt, f st).

Notation "x <- c1 ;; c2" := (bind c1 (fun x => c2))
  (at level 100, c1 at next level, right associativity).
Notation "c1 ;; c2" := (bind c1 (fun _ => c2))
  (at level 100, right associativity).

(** ** The driver

    The methods of a pymongo [Connection], [Database] and [Collection] that
    the replayer calls.  A write goes to the server; with [safe=True] the
    driver then asks for the server's error and raises it, without [safe]
    it returns at once and the error, if any, is never seen.  What the
    BSON encoder refuses of a document (a key of an inserted document that
    starts with [$] or has a dot, an integer beyond 64 bits) is not part of
    the methods below: the payloads of oplog entries are decoded BSON. *)

(** [p in s], for a string [p]. *)
Fixpoint has_infix (p s : string) : bool :=
  String.prefix p s
  || match s with
     | EmptyString => false
     | String _ r => has_infix p r
     end.

Definition ends_with (c : ascii) (s : string) : bool :=
  match String.get (String.length s - 1)%nat s with
  | Some a => Ascii.eqb a c
  | None => false
  end.

(** The check of [Database.__init__]: no empty name, and none of the
    characters that a database name cannot have, [$external] apart. *)
Definition check_database_name (name : string) : bool :=
  String.eqb name "$external"
  || (negb (String.eqb name "")
      && forallb (fun c => negb (contains c name))
           [" "; "."; "$"; "/"; "\"; Ascii.zero]%char).

(** The checks of [Collection.__init__]: no empty name and no [..]; a [$]
    only in [oplog.$main] and [$cmd]; no dot at either end; no null. *)
Definition check_collection_name (name : string) : bool :=
  negb (String.eqb name "")
  && negb (has_infix ".." name)
  && (negb (contains "$" name)
      || String.prefix "oplog.$main" name
      || String.prefix "$cmd" name)
  && negb (String.prefix "." name)
  && negb (ends_with "." name)
  && negb (contains Ascii.zero name).

(** [connection[name]], the database of that name. *)
Definition Connection_getitem (name : string) : M string :=
  if check_database_name name then ret name else raise InvalidName.

(** [database[name]], the collection of that name in the database. *)
Definition Database_getitem (db name : string) : M (string * string) :=
  if check_collection_name name then ret (db, name) else raise InvalidName.

(** What the BSON encoder accepts of a value: integers of 64 bits, no
    null character in a key and, when the keys are checked, as they are
    for an inserted document and for a replacement, no key that starts
    with [$] or has a dot.  A payload that does not encode never reaches
    the server. *)
Fixpoint encodable (check_keys : bool) (v : value) {struct v} : bool :=
  match v with
  | VInt n => (- 2 ^ 63 <=? n) && (n <? 2 ^ 63)
  | VDoc fields =>
      (fix fields_encodable (l : doc) {struct l} : bool :=
         match l with
         | [] => true
         | (k, x) :: r =>
             negb (contains Ascii.zero k)
             && (negb check_keys || plain_key k)
             && encodable check_keys x
             && fields_encodable r
         end) fields
  | _ => true
  end.

(** The keys of an update document are checked unless it is a document of
    operators, which the driver reads off its first key. *)
Definition update_checks_keys (md : doc) : bool :=
  match md with
  | (k, _) :: _ => negb (is_operator k)
  | [] => true
  end.

(** [d[k]], raising [KeyError]. *)
Definition getitem (d : doc) (k : string) : M value :=
  match doc_get k d with
  | Some v => ret v
  | None => raise (KeyError k)
  end.

Definition as_doc (v : value) : M doc :=
  match v with
  | VDoc d => ret d
  | _ => raise TypeError
  end.

Definition Collection_write (w : mongod -> option exn * mongod) (safe : bool)
  : M unit :=
  fun st =>
    let (err, s') := srv_write w (dest st) in
    (match err with
     | Some e => if safe then Raise e else Ok tt
     | None => Ok tt
     end, set_dest s' st).

Definition Collection_insert (coll : string * string) (document : value)
    (safe : bool) : M unit :=
  d <- as_doc document ;;
  Collection_write (srv_insert coll d) safe.

Definition Collection_update (coll : string * string) (spec document : value)
    (upsert safe : bool) : M unit :=
  s <- as_doc spec ;;
  d <- as_doc document ;;
  Collection_write (srv_update coll s d upsert) safe.

(** [remove] takes a selector or an [_id]; [None] selects everything. *)
Definition Collection_remove (coll : string * string) (spec_or_id : value)
    (safe : bool) : M unit :=
  let spec := match spec_or_id with
              | VDoc d => d
              | VNone => []
              | v => [("_id"%string, v)]
              end in
  Collection_write (srv_remove coll spec) safe.

Definition Collection_find_one (coll : string * string) (spec : doc)
  : M (option doc) :=
  gets (fun st => List.find (matches spec) (the_docs coll (dest st))).

(** ** [OplogReplayer] *)

(** [s.split(sep, 1)] for a one-character separator. *)
Fixpoint split1 (sep : ascii) (s : string) : list string :=
  match s with
  | EmptyString => [EmptyString]
  | String c r =>
      if Ascii.eqb c sep then [EmptyString; r]
      else match split1 sep r with
           | h :: t => String c h :: t
           | [] => [String c EmptyString]
           end
  end.

Definition settings : string * string := ("oplogreplay"%string, "settings"%string).

Definition print_replication_info : M unit :=
  now <- gets clock ;;
  last <- gets ts ;;
  match last with
  | VTimestamp time _ =>
      let delay := now - time in
      modify (add_log (Synced delay)) ;;
      count <- gets _replay_count ;;
      modify (add_log (Replayed now count))
  | _ => raise AttributeError
  end.

Definition _get_lastts : M value :=
  id <- gets _lastts_id ;;
  obj <- Collection_find_one settings [("_id"%string, VStr id)] ;;
  match obj with
  | None => ret VNone
  | Some o => getitem o "value"
  end.

Definition _update_lastts : M unit :=
  id <- gets _lastts_id ;;
  last <- gets ts ;;
  Collection_update settings (VDoc [("_id"%string, VStr id)])
    (VDoc [("$set"%string, VDoc [("value"%string, last)])]) true false.

Definition _dest_coll (ns : string) : M (string * string) :=
  match split1 "."%char ns with
  | [db; collection] =>
      database <- Connection_getitem db ;;
      Database_getitem database collection
  | _ => raise ValueError
  end.

Definition insert (ns : string) (id obj : value) (raw : doc) : M unit :=
  coll <- _dest_coll ns ;;
  o <- getitem raw "o" ;;
  Collection_insert coll o true.

Definition update (ns : string) (id mod_ : value) (raw : doc) : M unit :=
  coll <- _dest_coll ns ;;
  o2 <- getitem raw "o2" ;;
  o <- getitem raw "o" ;;
  Collection_update coll o2 o false true.

Definition delete (ns : string) (id : value) (raw : doc) : M unit :=
  coll <- _dest_coll ns ;;
  o <- getitem raw "o" ;;
  Collection_remove coll o true.

(** Modelled from the spec: the dispatch of [OplogWatcher.process_op], the
    method of the base class, whose module [oplogwatcher] is not among the
    sources.  The engine reads the kind of the operation and calls the
    matching handler (['i'], ['u'], ['d'], as in the handlers' docstrings,
    the handlers being those of the replayer); a record of any other kind
    is fatal. *)
Definition dispatch (ns op : string) (id : value) (raw : doc) : M unit :=
  if String.eqb op "i" then
    obj <- getitem raw "o" ;;
    insert ns id obj raw
  else if String.eqb op "u" then
    mod_ <- getitem raw "o" ;;
    update ns id mod_ raw
  else if String.eqb op "d" then
    delete ns id raw
  else raise (UnknownOperation op).

(** Modelled from the spec: [OplogWatcher.process_op], absent as well.
    After the handler has returned, the ordering token of the record,
    [raw['ts']], is the watcher's [ts], which is what [_update_lastts]
    then saves. *)
Definition OplogWatcher_process_op (ns op : string) (id : value) (raw : doc)
  : M unit :=
  dispatch ns op id raw ;;
  token <- getitem raw "ts" ;;
  modify (set_ts token).

Definition process_op (ns op : string) (id : value) (raw : doc) : M unit :=
  OplogWatcher_process_op ns op id raw ;;
  _update_lastts ;;
  modify (fun st => set_replay_count (_replay_count st + 1) st) ;;
  count <- gets _replay_count ;;
  if count mod 100 =? 0 then print_replication_info else ret tt.

(** [OplogReplayer(source, replicaset, dest)]: a replayer for the replica
    set [replicaset] in front of the destination [server], at the time
    [now].  The constructor of the base class, absent from the sources, is
    taken to keep the timestamp it is given as [self.ts], the resume token
    of the specification. *)
Definition __init__ (replicaset : string) (server : mongod) (now : Z)
  : outcome unit * state :=
  (last <- _get_lastts ;;
   modify (set_replay_count 0) ;;
   modify (set_ts last))
    {| _lastts_id := String.append replicaset "-lastts";
       ts := VNone; _replay_count := 0; dest := server;
       clock := now; debug_log := [] |}.

(** ** The feed *)

(** One entry of the oplog as the watcher hands it to [process_op]. *)
Record change := {
  c_ns : string;
  c_op : string;
  c_id : value;
  c_raw : doc;
}.

(** The ordering token of an entry. *)
Definition token (c : change) : value := default VNone (doc_get "ts" (c_raw c)).

(** Timestamps are ordered by time, then by increment. *)
Definition token_le (a b : value) : Prop :=
  match a, b with
  | VTimestamp t i, VTimestamp t' i' => t < t' \/ (t = t' /\ i <= i')
  | _, _ => False
  end.

(** Modelled from the spec: the consume loop of [OplogWatcher.start], which
    is not among the sources.  The entries of the feed are processed one
    after the other, in order; an exception ends the run.  The result is
    the state of the replayer after each entry that was processed. *)
Fixpoint run (feed : list change) (st : state) : list state :=
  match feed with
  | [] => []
  | c :: rest =>
      match process_op (c_ns c) (c_op c) (c_id c) (c_raw c) st with
      | (Ok _, st') => st' :: run rest st'
      | (Raise _, _) => []
      end
  end.

(** The checkpoint as the destination holds it: the [value] of the
    settings document of this replayer, if there is one. *)
Definition stored_checkpoint (st : state) : option value :=
  match List.find (matches [("_id"%string, VStr (_lastts_id st))])
          (the_docs settings (dest st)) with
  | Some o => doc_get "value" o
  | None => None
  end.

(** ** Auxiliary definitions for the statements *)

(** What the three writes have in common: they leave the verdicts alone,
    they touch one collection, and a refused write changes no document. *)
Record server_write (coll : string * string)
    (w : mongod -> option exn * mongod) : Prop := {
  sw_rejections : forall s, rejections (w s).2 = rejections s;
  sw_frame : forall s c, c <> coll -> colls (w s).2 !! c = colls s !! c;
  sw_error : forall s e, (w s).1 = Some e -> colls (w s).2 = colls s;
}.

(** What the upsert of [_update_lastts] makes of the settings collection:
    the first document with the replayer's [_id] gets the new [value]; when
    there is none, a new document is added at the end. *)
Fixpoint upsert_value (lid : string) (t : value) (docs : list doc) : list doc :=
  match docs with
  | [] => [[("_id"%string, VStr lid); ("value"%string, t)]]
  | d :: r =>
      if same_id (VStr lid) d then doc_set "value" t d :: r
      else d :: upsert_value lid t r
  end.

(** What [_update_lastts] does, whatever the server answers. *)
Definition after_save (st : state) : mongod :=
  let v := next_verdict (dest st) in
  if v.1 then v.2
  else set_docs settings
         (upsert_value (_lastts_id st) (ts st) (the_docs settings v.2)) v.2.

(** A handler changes nothing but the destination, there nothing but the
    collection [coll], and nothing at all when it raises; it leaves a
    healthy server healthy. *)
Definition effect {A} (coll : string * string) (st : state)
    (r : outcome A) (st' : state) : Prop :=
  st' = set_dest (dest st') st
  /\ (healthy (dest st) = true -> healthy (dest st') = true)
  /\ (forall e, r = Raise e -> colls (dest st') = colls (dest st))
  /\ (forall c, c <> coll -> colls (dest st') !! c = colls (dest st) !! c).

(** The state in which [process_op] leaves the replayer once the handler
    has returned and the record has its token. *)
Definition applied (tok : value) (st1 : state) : state :=
  let st2 := set_ts tok st1 in
  let st3 := set_dest (after_save st2) st2 in
  set_replay_count (_replay_count st3 + 1) st3.

(** The per-record step as the specification words it: apply, save the
    checkpoint, count, and report progress on every [progressLogEvery]-th
    record, the cadence being an option of the engine.  The source's
    [process_op] has the literal [100] in its place. *)
Definition spec_process_op (progressLogEvery : Z) (ns op : string)
    (id : value) (raw : doc) : M unit :=
  OplogWatcher_process_op ns op id raw ;;
  _update_lastts ;;
  modify (fun st => set_replay_count (_replay_count st + 1) st) ;;
  count <- gets _replay_count ;;
  if count mod progressLogEvery =? 0 then print_replication_info else ret tt.

(** ** A sample deployment

    The destination of the tests, empty, a replayer for the replica set
    [testsource], and entries like those of the handlers' docstrings. *)

Definition empty_server : mongod :=
  {| colls := ∅; next_oid := 0; rejections := [] |}.

Definition sample : state := (__init__ "testsource" empty_server 1318432400).2.

Definition tweet (nr : Z) : doc :=
  [("_id"%string, VObjectId nr); ("content"%string, VStr "Lorem ipsum");
   ("nr"%string, VInt nr)].

Definition insert_entry (nr time : Z) : change :=
  {| c_ns := "mydb.tweets"; c_op := "i"; c_id := VObjectId nr;
     c_raw := [("ts"%string, VTimestamp time 1); ("op"%string, VStr "i");
               ("ns"%string, VStr "mydb.tweets");
               ("o"%string, VDoc (tweet nr))] |}.

Definition update_entry (nr time : Z) : change :=
  {| c_ns := "mydb.tweets"; c_op := "u"; c_id := VObjectId nr;
     c_raw := [("ts"%string, VTimestamp time 1); ("op"%string, VStr "u");
               ("ns"%string, VStr "mydb.tweets");
               ("o2"%string, VDoc [("nr"%string, VInt nr)]);
               ("o"%string,
                VDoc [("$set"%string,
                       VDoc [("content"%string, VStr "newContent")])])] |}.

Definition delete_entry (nr time : Z) : change :=
  {| c_ns := "mydb.tweets"; c_op := "d"; c_id := VObjectId nr;
     c_raw := [("ts"%string, VTimestamp time 1); ("op"%string, VStr "d");
               ("ns"%string, VStr "mydb.tweets");
               ("o"%string, VDoc [("_id"%string, VObjectId nr)])] |}.

(** [process_op] on an entry of the feed. *)
Definition process (c : change) : M unit :=
  process_op (c_ns c) (c_op c) (c_id c) (c_raw c).

(** The sample replayer in front of a server with the given verdicts. *)
Definition sample_with (verdicts : list bool) : state :=
  set_dest {| colls := ∅; next_oid := 0; rejections := verdicts |} sample.

(** * Properties *)

(** ** Documents and selectors *)

Lemma value_eqb_refl : forall a, value_eqb a a = true.
Proof.
  fix IH 1. intros [ | b | n | s | o | t i | fs]; simpl; trivial.
  - by destruct b.
  - apply Z.eqb_refl.
  - apply String.eqb_refl.
  - apply Z.eqb_refl.
  - by rewrite !Z.eqb_refl.
  - induction fs as [ | [k v] r IHr]; [done | ].
    by rewrite String.eqb_refl, IH, IHr.
Qed.

Lemma value_eqb_true : forall a b, value_eqb a b = true -> a = b.
Proof.
  fix IH 1. intros [ | x | x | x | x | t i | fa] [ | y | y | y | y | t' i' | fb];
    simpl; try discriminate; trivial.
  - intros H. apply Bool.eqb_prop in H. by subst.
  - intros H. apply Z.eqb_eq in H. by subst.
  - intros H. apply String.eqb_eq in H. by subst.
  - intros H. apply Z.eqb_eq in H. by subst.
  - intros H. apply andb_true_iff in H as [H1 H2].
    apply Z.eqb_eq in H1. apply Z.eqb_eq in H2. by subst.
  - revert fb. induction fa as [ | [k v] r IHr]; intros [ | [k' v'] r'];
      try discriminate; trivial.
    intros H. apply andb_true_iff in H as [H H3].
    apply andb_true_iff in H as [H1 H2].
    apply String.eqb_eq in H1. apply IH in H2. apply IHr in H3.
    injection H3 as ->. by subst.
Qed.

Lemma value_eqb_eq a b : value_eqb a b = true <-> a = b.
Proof.
  split; [apply value_eqb_true | intros ->; apply value_eqb_refl].
Qed.

Lemma doc_get_set_same k v d : doc_get k (doc_set k v d) = Some v.
Proof.
  induction d as [ | [k' v'] r IH]; simpl.
  - by rewrite String.eqb_refl.
  - destruct (String.eqb k' k) eqn:E; simpl; rewrite E; [done | apply IH].
Qed.

Lemma doc_get_set_other k k' v d :
  k <> k' -> doc_get k' (doc_set k v d) = doc_get k' d.
Proof.
  intros Hne. induction d as [ | [k0 v0] r IH]; simpl.
  - destruct (String.eqb k k') eqn:E; [ | done].
    apply String.eqb_eq in E. contradiction.
  - destruct (String.eqb k0 k) eqn:E; simpl.
    + apply String.eqb_eq in E. subst k0.
      destruct (String.eqb k k') eqn:E'; [ | done].
      apply String.eqb_eq in E'. contradiction.
    + by rewrite IH.
Qed.

Lemma doc_set_again k v d : doc_set k v (doc_set k v d) = doc_set k v d.
Proof.
  induction d as [ | [k' v'] r IH]; simpl.
  - by rewrite String.eqb_refl.
  - destruct (String.eqb k' k) eqn:E; simpl; rewrite E; [done | by rewrite IH].
Qed.

(** A selector on [_id] alone picks the documents with that [_id]. *)
Lemma matches_id (i : string) (d : doc) :
  matches [("_id"%string, VStr i)] d = same_id (VStr i) d.
Proof.
  unfold matches, same_id, field_matches. simpl.
  destruct (doc_get "_id" d); simpl; by rewrite ?andb_true_r.
Qed.

Lemma find_none_forall {A} (p : A -> bool) (l : list A) :
  List.find p l = None <-> forallb (fun x => negb (p x)) l = true.
Proof.
  induction l as [ | x r IH]; simpl; [done | ].
  destruct (p x); simpl; [split; discriminate | apply IH].
Qed.

Lemma existsb_false_forall {A} (p : A -> bool) (l : list A) :
  existsb p l = false <-> forallb (fun x => negb (p x)) l = true.
Proof.
  induction l as [ | x r IH]; simpl; [done | ].
  destruct (p x); simpl; [split; discriminate | apply IH].
Qed.

Lemma find_pointwise {A} (p q : A -> bool) (l : list A) :
  (forall x, p x = q x) -> List.find p l = List.find q l.
Proof.
  intros H. induction l as [ | x r IH]; simpl; [done | ].
  by rewrite H, IH.
Qed.

Lemma filter_none {A} (p : A -> bool) (l : list A) :
  forallb (fun x => negb (p x)) l = true ->
  List.filter (fun x => negb (p x)) l = l.
Proof.
  induction l as [ | x r IH]; simpl; [done | ].
  destruct (p x); simpl; [discriminate | ]. intros H. by rewrite IH.
Qed.

(** ** The server *)

Lemma next_verdict_colls s : colls (next_verdict s).2 = colls s.
Proof. unfold next_verdict. by destruct (rejections s). Qed.

Lemma next_verdict_healthy s :
  healthy s = true ->
  (next_verdict s).1 = false /\ healthy (next_verdict s).2 = true.
Proof.
  unfold healthy, next_verdict.
  destruct (rejections s) as [ | b r] eqn:E; simpl.
  - by rewrite E.
  - intros H. apply andb_true_iff in H as [Hb Hr]. by destruct b.
Qed.

Lemma srv_insert_write coll d : server_write coll (srv_insert coll d).
Proof.
  split; intros s; unfold srv_insert;
    destruct (doc_get "_id" d); destruct (existsb _ _); simpl; trivial;
    try discriminate; intros c Hne; by rewrite lookup_insert_ne.
Qed.

Lemma srv_update_write coll spec md upsert :
  server_write coll (srv_update coll spec md upsert).
Proof.
  pose proof (srv_insert_write coll) as Hi.
  split; intros s; unfold srv_update;
    destruct (update_first _ _ _) as [[[e | ] docs'] | ]; simpl; trivial;
    try discriminate;
    try (intros c Hne; by rewrite lookup_insert_ne);
    destruct upsert; simpl; trivial; try discriminate;
    destruct (apply_mod md spec) as [d | ]; simpl; trivial; try discriminate;
    apply Hi.
Qed.

Lemma srv_remove_write coll spec : server_write coll (srv_remove coll spec).
Proof.
  split; intros s; unfold srv_remove; destruct (colls s !! coll); simpl;
    trivial; try discriminate; intros c Hne; by rewrite lookup_insert_ne.
Qed.

Lemma srv_write_write coll w :
  server_write coll w ->
  (forall s, healthy s = true -> healthy (srv_write w s).2 = true)
  /\ (forall s c, c <> coll -> colls (srv_write w s).2 !! c = colls s !! c)
  /\ (forall s e, (srv_write w s).1 = Some e ->
                  colls (srv_write w s).2 = colls s).
Proof.
  intros [Hr Hf He]. unfold srv_write. repeat split; intros s.
  - intros Hh. apply next_verdict_healthy in Hh as [Hv Hh].
    destruct (next_verdict s) as [b s1]; simpl in *. subst b.
    unfold healthy in *. by rewrite Hr.
  - intros c Hne. pose proof (next_verdict_colls s) as Hc.
    destruct (next_verdict s) as [[ | ] s1]; simpl in *; [by rewrite Hc | ].
    by rewrite Hf, Hc.
  - intros e. pose proof (next_verdict_colls s) as Hc.
    destruct (next_verdict s) as [[ | ] s1]; simpl in *; [done | ].
    intros H. by rewrite (He _ _ H).
Qed.

(** ** Namespaces *)

Lemma split1_without sep s : contains sep s = false -> split1 sep s = [s].
Proof.
  induction s as [ | a r IH]; simpl; [done | ].
  intros H. apply orb_false_iff in H as [Ha Hr]. by rewrite Ha, IH.
Qed.

Lemma split1_with sep s :
  contains sep s = true ->
  exists h t, split1 sep s = [h; t]
              /\ s = String.append h (String sep t)
              /\ contains sep h = false.
Proof.
  induction s as [ | a r IH]; simpl; [discriminate | ].
  destruct (Ascii.eqb a sep) eqn:E; simpl.
  - intros _. apply Ascii.eqb_eq in E. subst a.
    by exists EmptyString, r.
  - intros H. destruct (IH H) as (h & t & Hs & Hr & Hh).
    exists (String a h), t. repeat split.
    + by rewrite Hs.
    + by subst r.
    + simpl. by rewrite E.
Qed.

Lemma dest_coll_eq ns st :
  _dest_coll ns st
  = (match split1 "." ns with
     | [db; collection] =>
         if check_database_name db && check_collection_name collection
         then Ok (db, collection)
         else Raise InvalidName
     | _ => Raise ValueError
     end, st).
Proof.
  unfold _dest_coll, Connection_getitem, Database_getitem, bind, ret, raise.
  destruct (split1 "." ns) as [ | db [ | collection [ | x r]]]; trivial.
  destruct (check_database_name db); [ | done].
  by destruct (check_collection_name collection).
Qed.

(** C9 (as the code has it).  A namespace with a dot is split at its first
    dot into the name of a database and, dots included, the name of a
    collection, and resolves to that collection when the driver accepts
    both names; when it does not, [InvalidName] is raised.  For a
    namespace without a dot the unpacking fails with [ValueError].  In
    both cases of failure [insert], [update] and [delete] raise the same
    exception before anything is written. *)
Theorem dest_coll_splits_at_first_dot (ns : string) (st : state) :
  (contains "." ns = true ->
   exists db collection,
     ns = String.append db (String "." collection)
     /\ contains "." db = false
     /\ _dest_coll ns st
        = (if check_database_name db && check_collection_name collection
           then Ok (db, collection)
           else Raise InvalidName, st))
  /\ (contains "." ns = false -> _dest_coll ns st = (Raise ValueError, st))
  /\ (forall e,
        _dest_coll ns st = (Raise e, st) ->
        forall id obj raw,
          insert ns id obj raw st = (Raise e, st)
          /\ update ns id obj raw st = (Raise e, st)
          /\ delete ns id raw st = (Raise e, st)).
Proof.
  split; [ | split].
  - intros H. destruct (split1_with _ _ H) as (db & collection & Hs & Hn & Hd).
    exists db, collection. by rewrite dest_coll_eq, Hs.
  - intros H. by rewrite dest_coll_eq, (split1_without _ _ H).
  - intros e Hd id obj raw. unfold insert, update, delete, bind.
    by rewrite Hd.
Qed.

(** ** The checkpoint document *)

Lemma option_value_eqb_refl o : option_value_eqb o o = true.
Proof. destruct o; simpl; [apply value_eqb_refl | done]. Qed.

Lemma same_id_set_value i t d : same_id i (doc_set "value" t d) = same_id i d.
Proof. unfold same_id. by rewrite doc_get_set_other. Qed.

Lemma update_first_checkpoint lid t docs :
  update_first [("_id"%string, VStr lid)]
    [("$set"%string, VDoc [("value"%string, t)])] docs
  = if existsb (same_id (VStr lid)) docs
    then Some (None, upsert_value lid t docs)
    else None.
Proof.
  induction docs as [ | d r IH]; [done | ].
  cbn [update_first existsb upsert_value]. rewrite matches_id.
  destruct (same_id (VStr lid) d) eqn:E; simpl.
  - rewrite doc_get_set_other by done. by rewrite option_value_eqb_refl.
  - rewrite IH. by destruct (existsb _ r).
Qed.

Lemma upsert_value_fresh lid t docs :
  existsb (same_id (VStr lid)) docs = false ->
  upsert_value lid t docs
  = docs ++ [[("_id"%string, VStr lid); ("value"%string, t)]].
Proof.
  induction docs as [ | d r IH]; simpl; [done | ].
  destruct (same_id (VStr lid) d); simpl; [discriminate | ].
  intros H. by rewrite IH.
Qed.

Lemma srv_update_checkpoint lid t s :
  srv_update settings [("_id"%string, VStr lid)]
    [("$set"%string, VDoc [("value"%string, t)])] true s
  = (None, set_docs settings (upsert_value lid t (the_docs settings s)) s).
Proof.
  unfold srv_update. rewrite update_first_checkpoint.
  destruct (existsb _ _) eqn:E; [done | ].
  rewrite upsert_value_fresh by done.
  unfold srv_insert. cbn [apply_mod existsb is_operator fst snd].
  simpl. by rewrite E.
Qed.

(** The first document with the replayer's [_id] holds the saved value. *)
Lemma find_upsert_value lid t docs :
  exists d, List.find (same_id (VStr lid)) (upsert_value lid t docs) = Some d
            /\ doc_get "value" d = Some t.
Proof.
  induction docs as [ | d r IH]; simpl.
  - unfold same_id. simpl. rewrite String.eqb_refl. by eexists.
  - destruct (same_id (VStr lid) d) eqn:E; simpl.
    + rewrite same_id_set_value, E. eexists. split; [done | ].
      apply doc_get_set_same.
    + by rewrite E.
Qed.

Lemma upsert_value_again lid t docs :
  upsert_value lid t (upsert_value lid t docs) = upsert_value lid t docs.
Proof.
  induction docs as [ | d r IH]; simpl.
  - unfold same_id. simpl. by rewrite String.eqb_refl.
  - destruct (same_id (VStr lid) d) eqn:E; simpl.
    + by rewrite same_id_set_value, E, doc_set_again.
    + by rewrite E, IH.
Qed.

(** The documents of other replayers are as they were. *)
Lemma upsert_value_others lid t docs :
  List.filter (fun d => negb (same_id (VStr lid) d)) (upsert_value lid t docs)
  = List.filter (fun d => negb (same_id (VStr lid) d)) docs.
Proof.
  induction docs as [ | d r IH]; simpl.
  - unfold same_id. simpl. by rewrite String.eqb_refl.
  - destruct (same_id (VStr lid) d) eqn:E; simpl.
    + by rewrite same_id_set_value, E.
    + by rewrite E, IH.
Qed.

(** No second row: the save adds a document only when there was none. *)
Lemma upsert_value_rows lid t docs :
  length (List.filter (same_id (VStr lid)) (upsert_value lid t docs))
  = Nat.max 1 (length (List.filter (same_id (VStr lid)) docs)).
Proof.
  induction docs as [ | d r IH]; simpl.
  - unfold same_id. simpl. by rewrite String.eqb_refl.
  - destruct (same_id (VStr lid) d) eqn:E; simpl.
    + by rewrite same_id_set_value, E.
    + by rewrite E, IH.
Qed.

Lemma the_docs_set_docs coll docs s :
  the_docs coll (set_docs coll docs s) = docs.
Proof. unfold the_docs, set_docs. simpl. by rewrite lookup_insert_eq. Qed.

Lemma update_lastts_eq st :
  _update_lastts st = (Ok tt, set_dest (after_save st) st).
Proof.
  unfold _update_lastts, after_save, Collection_update, Collection_write,
    srv_write, as_doc, bind, gets, ret. simpl.
  destruct (next_verdict (dest st)) as [[ | ] s1]; simpl; [done | ].
  by rewrite srv_update_checkpoint.
Qed.

Lemma get_lastts_eq st :
  _get_lastts st
  = (match stored_checkpoint st with
     | Some v => Ok v
     | None =>
         match List.find (same_id (VStr (_lastts_id st)))
                 (the_docs settings (dest st)) with
         | Some _ => Raise (KeyError "value")
         | None => Ok VNone
         end
     end, st).
Proof.
  unfold _get_lastts, stored_checkpoint, Collection_find_one, getitem,
    bind, gets, ret, raise. simpl.
  rewrite (find_pointwise _ _ _ (matches_id (_lastts_id st))).
  destruct (List.find _ _) as [o | ]; [ | done].
  by destruct (doc_get "value" o).
Qed.

Lemma the_docs_next_verdict coll s :
  the_docs coll (next_verdict s).2 = the_docs coll s.
Proof. unfold the_docs. by rewrite next_verdict_colls. Qed.

Lemma stored_checkpoint_find st :
  stored_checkpoint st
  = match List.find (same_id (VStr (_lastts_id st)))
            (the_docs settings (dest st)) with
    | Some o => doc_get "value" o
    | None => None
    end.
Proof.
  unfold stored_checkpoint.
  by rewrite (find_pointwise _ _ _ (matches_id (_lastts_id st))).
Qed.

(** A save that the server accepts is what the next load reads. *)
Lemma stored_after_save st :
  (next_verdict (dest st)).1 = false ->
  stored_checkpoint (set_dest (after_save st) st) = Some (ts st).
Proof.
  intros Hv. rewrite stored_checkpoint_find. unfold after_save.
  rewrite Hv. simpl. rewrite the_docs_set_docs.
  destruct (find_upsert_value (_lastts_id st) (ts st)
              (the_docs settings (next_verdict (dest st)).2))
    as (d & -> & Hd).
  done.
Qed.

Lemma after_save_healthy st :
  healthy (dest st) = true -> healthy (after_save st) = true.
Proof.
  intros H. apply next_verdict_healthy in H as [Hv H].
  unfold after_save. by rewrite Hv.
Qed.

(** ** The effect of a handler on the state *)

Lemma effect_none {A} coll st (r : outcome A) : effect coll st r st.
Proof. unfold effect. by destruct st. Qed.

Lemma Collection_write_effect coll w safe st :
  server_write coll w ->
  effect coll st (Collection_write w safe st).1 (Collection_write w safe st).2.
Proof.
  intros Hw. destruct (srv_write_write _ _ Hw) as (Hh & Hf & He).
  unfold Collection_write. specialize (Hh (dest st)).
  specialize (Hf (dest st)). specialize (He (dest st)).
  destruct (srv_write w (dest st)) as [err s']; simpl in *.
  repeat split; trivial.
  intros e Hr. destruct err as [e' | ]; [ | discriminate].
  by apply (He e').
Qed.

Lemma bind_getitem {B} (d : doc) (k : string) (f : value -> M B) st :
  (v <- getitem d k ;; f v) st
  = match doc_get k d with
    | Some v => f v st
    | None => (Raise (KeyError k), st)
    end.
Proof. unfold bind, getitem. by destruct (doc_get k d). Qed.

Lemma insert_effect ns id obj raw st coll :
  _dest_coll ns st = (Ok coll, st) ->
  effect coll st (insert ns id obj raw st).1 (insert ns id obj raw st).2.
Proof.
  intros Hc. unfold insert, Collection_insert, bind. rewrite Hc.
  unfold getitem. destruct (doc_get "o" raw) as [[ | | | | | | d] | ];
    try apply effect_none.
  apply Collection_write_effect, srv_insert_write.
Qed.

Lemma update_effect ns id mod_ raw st coll :
  _dest_coll ns st = (Ok coll, st) ->
  effect coll st (update ns id mod_ raw st).1 (update ns id mod_ raw st).2.
Proof.
  intros Hc. unfold update, Collection_update, bind. rewrite Hc.
  unfold getitem. destruct (doc_get "o2" raw) as [[ | | | | | | s] | ];
    destruct (doc_get "o" raw) as [[ | | | | | | d] | ];
    try apply effect_none.
  apply Collection_write_effect, srv_update_write.
Qed.

Lemma delete_effect ns id raw st coll :
  _dest_coll ns st = (Ok coll, st) ->
  effect coll st (delete ns id raw st).1 (delete ns id raw st).2.
Proof.
  intros Hc. unfold delete, Collection_remove, bind. rewrite Hc.
  unfold getitem. destruct (doc_get "o" raw) as [v | ];
    [ | apply effect_none].
  apply Collection_write_effect, srv_remove_write.
Qed.

Lemma dest_coll_cases ns st :
  (exists coll, _dest_coll ns st = (Ok coll, st))
  \/ (exists e, _dest_coll ns st = (Raise e, st)).
Proof.
  rewrite dest_coll_eq.
  destruct (split1 "." ns) as [ | db [ | collection [ | x r]]];
    try (right; by eexists).
  destruct (_ && _); [left | right]; by eexists.
Qed.

Lemma dispatch_effect ns op id raw st :
  exists coll,
    (_dest_coll ns st = (Ok coll, st) \/ (dispatch ns op id raw st).2 = st)
    /\ effect coll st (dispatch ns op id raw st).1 (dispatch ns op id raw st).2.
Proof.
  destruct (dest_coll_cases ns st) as [[coll Hc] | [e Hc]].
  - exists coll. split; [by left | ].
    unfold dispatch.
    destruct (String.eqb op "i");
      [ | destruct (String.eqb op "u"); [ | destruct (String.eqb op "d")]].
    + rewrite bind_getitem.
      destruct (doc_get "o" raw); [by apply insert_effect | apply effect_none].
    + rewrite bind_getitem.
      destruct (doc_get "o" raw); [by apply update_effect | apply effect_none].
    + by apply delete_effect.
    + apply effect_none.
  - exists settings.
    assert (dispatch ns op id raw st = ((dispatch ns op id raw st).1, st))
      as ->; [ | split; [by right | apply effect_none]].
    unfold dispatch.
    destruct (String.eqb op "i");
      [ | destruct (String.eqb op "u"); [ | destruct (String.eqb op "d")]];
      unfold insert, update, delete, bind, getitem;
      try destruct (doc_get "o" raw); simpl; by rewrite ?Hc.
Qed.

(** [process_op], step by step. *)
Lemma process_op_eq ns op id raw st :
  process_op ns op id raw st
  = match dispatch ns op id raw st with
    | (Raise e, st1) => (Raise e, st1)
    | (Ok _, st1) =>
        match doc_get "ts" raw with
        | None => (Raise (KeyError "ts"), st1)
        | Some tok =>
            let st2 := set_ts tok st1 in
            let st3 := set_dest (after_save st2) st2 in
            let st4 := set_replay_count (_replay_count st3 + 1) st3 in
            if _replay_count st4 mod 100 =? 0
            then print_replication_info st4
            else (Ok tt, st4)
        end
    end.
Proof.
  unfold process_op, OplogWatcher_process_op.
  unfold bind at 1. unfold bind at 1.
  destruct (dispatch ns op id raw st) as [[[] | e] st1]; [ | done].
  unfold bind at 1, getitem.
  destruct (doc_get "ts" raw) as [tok | ]; [ | done].
  unfold ret at 1, modify at 1. unfold bind at 1. rewrite update_lastts_eq.
  unfold bind at 1, modify at 1. unfold bind at 1, gets at 1.
  cbv zeta. by destruct (_ =? 0).
Qed.

Lemma print_replication_info_eq st :
  print_replication_info st
  = match ts st with
    | VTimestamp time _ =>
        (Ok tt, add_log (Replayed (clock st) (_replay_count st))
                  (add_log (Synced (clock st - time)) st))
    | _ => (Raise AttributeError, st)
    end.
Proof.
  unfold print_replication_info, bind, gets, modify, raise. simpl.
  by destruct (ts st).
Qed.

Lemma stored_checkpoint_same st st' :
  _lastts_id st' = _lastts_id st -> dest st' = dest st ->
  stored_checkpoint st' = stored_checkpoint st.
Proof. unfold stored_checkpoint. by intros -> ->. Qed.

Lemma process_op_applied ns op id raw st st1 tok :
  dispatch ns op id raw st = (Ok tt, st1) ->
  doc_get "ts" raw = Some tok ->
  process_op ns op id raw st
  = if (_replay_count st1 + 1) mod 100 =? 0
    then print_replication_info (applied tok st1)
    else (Ok tt, applied tok st1).
Proof. intros Hd Ht. by rewrite process_op_eq, Hd, Ht. Qed.

(** What a record that was processed without an exception leaves. *)
Lemma process_op_ok ns op id raw st st' :
  process_op ns op id raw st = (Ok tt, st') ->
  exists st1 tok,
    dispatch ns op id raw st = (Ok tt, st1)
    /\ doc_get "ts" raw = Some tok
    /\ dest st' = after_save (set_ts tok st1)
    /\ _lastts_id st' = _lastts_id st
    /\ ts st' = tok
    /\ _replay_count st' = _replay_count st + 1.
Proof.
  rewrite process_op_eq.
  destruct (dispatch_effect ns op id raw st) as (coll & _ & Hst & _).
  destruct (dispatch ns op id raw st) as [[[] | e] st1]; [ | discriminate].
  simpl in Hst.
  destruct (doc_get "ts" raw) as [tok | ]; [ | discriminate].
  cbv zeta. intros H. exists st1, tok.
  assert (Hid : _lastts_id st1 = _lastts_id st) by (by rewrite Hst).
  assert (Hn : _replay_count st1 = _replay_count st) by (by rewrite Hst).
  destruct (_ =? 0).
  - rewrite print_replication_info_eq in H. simpl in H.
    destruct tok; try discriminate. injection H as <-. simpl.
    by rewrite Hid, Hn.
  - injection H as <-. simpl. by rewrite Hid, Hn.
Qed.

(** ** The checkpoint along a run *)

Lemma process_op_checkpoint ns op id raw st st' :
  healthy (dest st) = true ->
  process_op ns op id raw st = (Ok tt, st') ->
  exists tok,
    doc_get "ts" raw = Some tok
    /\ stored_checkpoint st' = Some tok
    /\ healthy (dest st') = true.
Proof.
  intros Hh H.
  destruct (process_op_ok _ _ _ _ _ _ H) as (st1 & tok & Hd & Ht & Hdest & Hid & _).
  destruct (dispatch_effect ns op id raw st) as (coll & _ & Hst & Hh1 & _).
  rewrite Hd in Hst, Hh1. simpl in Hst, Hh1. specialize (Hh1 Hh).
  exists tok. split; [done | ].
  assert (Hh2 : healthy (dest (set_ts tok st1)) = true) by done.
  split.
  - pose proof (stored_after_save (set_ts tok st1)) as Hs.
    simpl in Hs. rewrite <- Hs by (by apply next_verdict_healthy).
    apply stored_checkpoint_same; [ | done].
    simpl. rewrite Hid. by rewrite Hst.
  - rewrite Hdest. by apply after_save_healthy.
Qed.

Lemma run_checkpoints feed : forall st k st',
  healthy (dest st) = true ->
  run feed st !! k = Some st' ->
  exists c, feed !! k = Some c /\ stored_checkpoint st' = Some (token c).
Proof.
  induction feed as [ | c rest IH]; intros st k st' Hh; simpl; [done | ].
  destruct (process_op _ _ _ _ st) as [[[] | e] st1] eqn:E; [ | done].
  destruct (process_op_checkpoint _ _ _ _ _ _ Hh E) as (tok & Ht & Hs & Hh1).
  destruct k as [ | k]; simpl.
  - intros [= <-]. exists c. split; [done | ].
    unfold token. by rewrite Ht.
  - by apply IH.
Qed.

Lemma StronglySorted_lookup {A} (R : A -> A -> Prop) (l : list A) :
  StronglySorted R l ->
  forall i j a b, (i < j)%nat -> l !! i = Some a -> l !! j = Some b -> R a b.
Proof.
  induction 1 as [ | x l Hs IH Hx]; intros i j a b Hij; [done | ].
  destruct j as [ | j]; [lia | ]. destruct i as [ | i]; simpl.
  - intros [= <-] Hb. rewrite Forall_forall in Hx. apply Hx.
    by eapply list_elem_of_lookup_2.
  - apply IH. lia.
Qed.

(** The checkpoint along a run that no refusal disturbs.  Against a
    destination that accepts the writes, with a feed in the order of its
    tokens that starts after the stored checkpoint: after each record the
    stored checkpoint is the token of that record, the last one applied,
    and from any point of the run to any later one the stored checkpoint
    does not decrease. *)
Theorem checkpoint_follows_the_last_applied (feed : list change) (st : state) :
  healthy (dest st) = true ->
  StronglySorted token_le (map token feed) ->
  (forall t, stored_checkpoint st = Some t ->
             Forall (fun c => token_le t (token c)) feed) ->
  (forall k st', run feed st !! k = Some st' ->
     exists c, feed !! k = Some c /\ stored_checkpoint st' = Some (token c))
  /\ (forall i j sti stj a b,
        (i < j)%nat ->
        (st :: run feed st) !! i = Some sti ->
        (st :: run feed st) !! j = Some stj ->
        stored_checkpoint sti = Some a ->
        stored_checkpoint stj = Some b ->
        token_le a b).
Proof.
  intros Hh Hs H0. split.
  - intros k st'. by apply run_checkpoints.
  - intros i j sti stj a b Hij Hi Hj Ha Hb.
    destruct j as [ | j]; [lia | ]. simpl in Hj.
    destruct (run_checkpoints _ _ _ _ Hh Hj) as (cj & Hcj & Hsj).
    rewrite Hsj in Hb. injection Hb as <-.
    destruct i as [ | i]; simpl in Hi.
    + injection Hi as <-. specialize (H0 _ Ha).
      rewrite Forall_forall in H0. apply H0.
      by eapply list_elem_of_lookup_2.
    + destruct (run_checkpoints _ _ _ _ Hh Hi) as (ci & Hci & Hsi).
      rewrite Hsi in Ha. injection Ha as <-.
      apply (StronglySorted_lookup _ _ Hs i j); [lia | | ];
        by rewrite list_lookup_fmap, ?Hci, ?Hcj.
Qed.

(** ** Saving and loading the checkpoint *)

(** C6.  Against a destination that accepts the writes, [_update_lastts]
    is an idempotent upsert of the one settings document whose [_id] is the
    replayer's: the server finds nothing wrong with the upsert, a second
    save of the same timestamp leaves every collection as the first left
    it, a save adds a document only when there was none with that [_id],
    and [_get_lastts] after the save returns the timestamp that was saved,
    to any replayer of the replica set in front of that destination,
    whatever timestamp it has itself. *)
Theorem save_is_an_idempotent_upsert (st : state) :
  healthy (dest st) = true ->
  exists st1 st2,
    _update_lastts st = (Ok tt, st1)
    /\ _update_lastts st1 = (Ok tt, st2)
    /\ (forall s,
          (srv_update settings [("_id"%string, VStr (_lastts_id st))]
             [("$set"%string, VDoc [("value"%string, ts st)])] true s).1
          = None)
    /\ colls (dest st2) = colls (dest st1)
    /\ length (List.filter (same_id (VStr (_lastts_id st)))
                 (the_docs settings (dest st1)))
       = Nat.max 1 (length (List.filter (same_id (VStr (_lastts_id st)))
                              (the_docs settings (dest st))))
    /\ (forall reader,
          _lastts_id reader = _lastts_id st ->
          dest reader = dest st1 ->
          _get_lastts reader = (Ok (ts st), reader)).
Proof.
  intros Hh. exists (set_dest (after_save st) st).
  eexists. split; [apply update_lastts_eq | ].
  split; [apply update_lastts_eq | ].
  split; [intros s; by rewrite srv_update_checkpoint | ].
  pose proof (after_save_healthy _ Hh) as Hh1.
  destruct (next_verdict_healthy _ Hh) as [Hv _].
  assert (Hv1 : (next_verdict (dest (set_dest (after_save st) st))).1 = false)
    by (by apply next_verdict_healthy).
  repeat split.
  - simpl. unfold after_save at 1. rewrite Hv1. simpl.
    rewrite the_docs_next_verdict, next_verdict_colls.
    unfold after_save. rewrite Hv. simpl.
    rewrite the_docs_set_docs, upsert_value_again.
    apply insert_insert_eq.
  - simpl. unfold after_save. rewrite Hv. simpl.
    by rewrite the_docs_set_docs, upsert_value_rows, the_docs_next_verdict.
  - intros reader Hid Hd. rewrite get_lastts_eq.
    rewrite (stored_checkpoint_same (set_dest (after_save st) st) reader)
      by done.
    by rewrite stored_after_save.
Qed.

(** C7.  [_get_lastts] returns [None], without failing, when the settings
    collection has no document for this replica set; it returns the stored
    value when there is one; and after a record has been processed against
    a destination that accepts the writes, what it returns is the token of
    that record. *)
Theorem load_returns_the_token_or_nothing (st : state) :
  (List.find (same_id (VStr (_lastts_id st))) (the_docs settings (dest st))
   = None ->
   _get_lastts st = (Ok VNone, st))
  /\ (forall t, stored_checkpoint st = Some t -> _get_lastts st = (Ok t, st))
  /\ (forall ns op id raw st',
        healthy (dest st) = true ->
        process_op ns op id raw st = (Ok tt, st') ->
        exists tok, doc_get "ts" raw = Some tok
                    /\ _get_lastts st' = (Ok tok, st')).
Proof.
  repeat split.
  - intros H. rewrite get_lastts_eq, stored_checkpoint_find. by rewrite H.
  - intros t H. rewrite get_lastts_eq. by rewrite H.
  - intros ns op id raw st' Hh H.
    destruct (process_op_checkpoint _ _ _ _ _ _ Hh H) as (tok & Ht & Hs & _).
    exists tok. split; [done | ]. rewrite get_lastts_eq. by rewrite Hs.
Qed.

(** ** A refused save *)

(** C3 (the code does otherwise).  When the server refuses the write of
    the checkpoint, [_update_lastts] still returns normally: the update is
    sent without [safe=True], so the refusal never reaches the replayer,
    and the stored checkpoint stays what it was. *)
Theorem refused_save_is_not_raised (st : state) (r : list bool) :
  rejections (dest st) = true :: r ->
  exists st',
    _update_lastts st = (Ok tt, st')
    /\ colls (dest st') = colls (dest st)
    /\ stored_checkpoint st' = stored_checkpoint st.
Proof.
  intros Hr. exists (set_dest (after_save st) st).
  split; [apply update_lastts_eq | ].
  assert (Hc : colls (after_save st) = colls (dest st)).
  { unfold after_save, next_verdict. by rewrite Hr. }
  split; [done | ]. unfold stored_checkpoint, the_docs. simpl. by rewrite Hc.
Qed.

(** The handlers do pass [safe=True]: the same refusal makes [insert]
    raise. *)
Lemma refused_insert_is_raised ns id obj raw st coll o r :
  _dest_coll ns st = (Ok coll, st) ->
  doc_get "o" raw = Some (VDoc o) ->
  rejections (dest st) = true :: r ->
  (insert ns id obj raw st).1 = Raise OperationFailure.
Proof.
  intros Hc Ho Hr. unfold insert. unfold bind at 1. rewrite Hc.
  rewrite bind_getitem, Ho.
  unfold Collection_insert, as_doc, bind, ret, Collection_write, srv_write,
    next_verdict.
  by rewrite Hr.
Qed.

(** ** The progress report *)

(** C8.  [print_replication_info] reports as the delay the clock's reading
    minus the time component of [self.ts]; and whenever [process_op] writes
    to the log, what it writes is that report for the record just
    processed: the clock's reading minus the time component of its token. *)
Theorem reported_lag_is_now_minus_token_time ns op id raw st :
  debug_log (print_replication_info st).2
  = debug_log st ++
    match ts st with
    | VTimestamp time _ =>
        [Synced (clock st - time); Replayed (clock st) (_replay_count st)]
    | _ => []
    end
  /\ let st' := (process_op ns op id raw st).2 in
     (debug_log st' = debug_log st
      \/ exists time inc,
           doc_get "ts" raw = Some (VTimestamp time inc)
           /\ debug_log st'
              = debug_log st ++ [Synced (clock st - time);
                                 Replayed (clock st) (_replay_count st + 1)]).
Proof.
  split.
  { rewrite print_replication_info_eq.
    destruct (ts st); simpl; by rewrite <- ?app_assoc, ?app_nil_r. }
  cbv zeta. rewrite process_op_eq.
  destruct (dispatch_effect ns op id raw st) as (coll & _ & Hst & _).
  destruct (dispatch ns op id raw st) as [[[] | e] st1]; simpl in Hst.
  - destruct (doc_get "ts" raw) as [tok | ]; simpl;
      [ | left; by rewrite Hst].
    destruct (_ =? 0); simpl; [ | left; by rewrite Hst].
    rewrite print_replication_info_eq. simpl.
    destruct tok; simpl; try (left; by rewrite Hst).
    right. do 2 eexists. split; [done | ].
    rewrite Hst. simpl. by rewrite <- app_assoc.
  - left. simpl. by rewrite Hst.
Qed.

(** ** What a record may change *)

Lemma after_save_frame st c :
  c <> settings -> colls (after_save st) !! c = colls (dest st) !! c.
Proof.
  intros Hne. unfold after_save.
  destruct (next_verdict (dest st)).1; simpl;
    rewrite ?lookup_insert_ne by done; by rewrite next_verdict_colls.
Qed.

Lemma after_save_others st :
  List.filter (fun d => negb (same_id (VStr (_lastts_id st)) d))
    (the_docs settings (after_save st))
  = List.filter (fun d => negb (same_id (VStr (_lastts_id st)) d))
      (the_docs settings (dest st)).
Proof.
  unfold after_save. destruct (next_verdict (dest st)).1; simpl.
  - by rewrite the_docs_next_verdict.
  - by rewrite the_docs_set_docs, upsert_value_others, the_docs_next_verdict.
Qed.

Lemma process_op_dest ns op id raw st :
  let st1 := (dispatch ns op id raw st).2 in
  let st' := (process_op ns op id raw st).2 in
  _lastts_id st1 = _lastts_id st
  /\ (dest st' = dest st1
      \/ exists tok, dest st' = after_save (set_ts tok st1)).
Proof.
  cbv zeta. rewrite process_op_eq.
  destruct (dispatch_effect ns op id raw st) as (coll & _ & Hst & _).
  split; [by rewrite Hst | ].
  destruct (dispatch ns op id raw st) as [[[] | e] st1]; simpl; [ | by left].
  destruct (doc_get "ts" raw) as [tok | ]; simpl; [ | by left].
  right. exists tok. destruct (_ =? 0); [ | done].
  rewrite print_replication_info_eq. simpl. by destruct tok.
Qed.

(** C10.  Whatever the record and however processing it ends, a
    collection of the destination other than the one the namespace names
    and other than [oplogreplay.settings] is as it was; and unless the
    namespace names [oplogreplay.settings] itself, the documents of that
    collection other than the one with the replayer's [_id] are as they
    were. *)
Theorem process_op_frame ns op id raw st :
  let st' := (process_op ns op id raw st).2 in
  (forall c, c <> settings -> _dest_coll ns st <> (Ok c, st) ->
             colls (dest st') !! c = colls (dest st) !! c)
  /\ (_dest_coll ns st <> (Ok settings, st) ->
      List.filter (fun d => negb (same_id (VStr (_lastts_id st)) d))
        (the_docs settings (dest st'))
      = List.filter (fun d => negb (same_id (VStr (_lastts_id st)) d))
          (the_docs settings (dest st))).
Proof.
  cbv zeta.
  destruct (process_op_dest ns op id raw st) as [Hid Hd].
  destruct (dispatch_effect ns op id raw st) as (coll & Hcoll & _ & _ & _ & Hf).
  assert (Hother : forall c, _dest_coll ns st <> (Ok c, st) ->
            colls (dest (dispatch ns op id raw st).2) !! c
            = colls (dest st) !! c).
  { intros c Hc. destruct Hcoll as [Hcoll | ->]; [ | done].
    apply Hf. intros ->. contradiction. }
  split.
  - intros c Hs Hc. destruct Hd as [-> | [tok ->]].
    + by apply Hother.
    + rewrite after_save_frame by done. by apply Hother.
  - intros Hs. specialize (Hother _ Hs).
    assert (Hdocs : the_docs settings (dest (dispatch ns op id raw st).2)
                    = the_docs settings (dest st))
      by (unfold the_docs; by rewrite Hother).
    destruct Hd as [-> | [tok ->]].
    + by rewrite Hdocs.
    + rewrite <- Hdocs, <- Hid. apply (after_save_others (set_ts tok _)).
Qed.

(** ** A selector that finds nothing *)

Lemma update_first_none spec md docs :
  forallb (fun d => negb (matches spec d)) docs = true ->
  update_first spec md docs = None.
Proof.
  induction docs as [ | d r IH]; simpl; [done | ].
  destruct (matches spec d); simpl; [discriminate | ].
  intros H. by rewrite IH.
Qed.

Lemma update_nothing ns id mod_ raw st coll sel md :
  healthy (dest st) = true ->
  _dest_coll ns st = (Ok coll, st) ->
  doc_get "o2" raw = Some (VDoc sel) ->
  doc_get "o" raw = Some (VDoc md) ->
  forallb (fun d => negb (matches sel d)) (the_docs coll (dest st)) = true ->
  update ns id mod_ raw st
  = (Ok tt, set_dest (next_verdict (dest st)).2 st).
Proof.
  intros Hh Hc Ho2 Ho Hn. unfold update. unfold bind at 1. rewrite Hc.
  rewrite bind_getitem, Ho2, bind_getitem, Ho.
  unfold Collection_update, as_doc, bind, ret, Collection_write, srv_write.
  destruct (next_verdict_healthy _ Hh) as [Hv _].
  pose proof (the_docs_next_verdict coll (dest st)) as Hd.
  destruct (next_verdict (dest st)) as [b s1]; simpl in *. subst b.
  unfold srv_update. rewrite Hd. by rewrite update_first_none.
Qed.

Lemma delete_nothing ns id raw st coll sel :
  healthy (dest st) = true ->
  _dest_coll ns st = (Ok coll, st) ->
  doc_get "o" raw = Some (VDoc sel) ->
  forallb (fun d => negb (matches sel d)) (the_docs coll (dest st)) = true ->
  exists s, delete ns id raw st = (Ok tt, set_dest s st)
            /\ colls s = colls (dest st).
Proof.
  intros Hh Hc Ho Hn. unfold delete. unfold bind at 1. rewrite Hc.
  rewrite bind_getitem, Ho.
  unfold Collection_remove, Collection_write, srv_write.
  destruct (next_verdict_healthy _ Hh) as [Hv _].
  pose proof (next_verdict_colls (dest st)) as Hcolls.
  unfold the_docs in Hn. rewrite <- Hcolls in Hn.
  destruct (next_verdict (dest st)) as [b s1]; simpl in *. subst b.
  unfold srv_remove. destruct (colls s1 !! coll) as [docs | ] eqn:E; simpl.
  - eexists. split; [done | ]. simpl in *.
    rewrite filter_none by done. rewrite <- Hcolls. by apply insert_id.
  - by eexists.
Qed.

(** C5.  An update or a delete whose selector finds no document in the
    collection its namespace names, processed against a destination that
    accepts the writes: the handler returns without having changed any
    collection, [process_op] returns without an exception, and the stored
    checkpoint is the token of the record. *)
Theorem missing_target_is_a_noop ns op id raw st coll sel time inc :
  healthy (dest st) = true ->
  _dest_coll ns st = (Ok coll, st) ->
  (op = "u"%string /\ doc_get "o2" raw = Some (VDoc sel)
   /\ exists md, doc_get "o" raw = Some (VDoc md))
  \/ (op = "d"%string /\ doc_get "o" raw = Some (VDoc sel)) ->
  forallb (fun d => negb (matches sel d)) (the_docs coll (dest st)) = true ->
  doc_get "ts" raw = Some (VTimestamp time inc) ->
  exists st1 st',
    dispatch ns op id raw st = (Ok tt, st1)
    /\ colls (dest st1) = colls (dest st)
    /\ process_op ns op id raw st = (Ok tt, st')
    /\ stored_checkpoint st' = Some (VTimestamp time inc).
Proof.
  intros Hh Hc Hop Hn Ht.
  assert (Hd : exists st1, dispatch ns op id raw st = (Ok tt, st1)
                           /\ colls (dest st1) = colls (dest st)).
  { destruct Hop as [(-> & Ho2 & md & Ho) | (-> & Ho)]; unfold dispatch; simpl.
    - rewrite bind_getitem, Ho.
      rewrite (update_nothing _ _ _ _ _ _ _ _ Hh Hc Ho2 Ho Hn).
      eexists. split; [done | ]. apply next_verdict_colls.
    - destruct (delete_nothing _ id _ _ _ _ Hh Hc Ho Hn) as (s & -> & Hs).
      by eexists. }
  destruct Hd as (st1 & Hd & Hcolls). exists st1.
  assert (Hp : exists st', process_op ns op id raw st = (Ok tt, st')).
  { rewrite (process_op_applied _ _ _ _ _ _ _ Hd Ht).
    destruct (_ =? 0); [ | by eexists].
    rewrite print_replication_info_eq. by eexists. }
  destruct Hp as [st' Hp]. exists st'. repeat split; trivial.
  destruct (process_op_checkpoint _ _ _ _ _ _ Hh Hp) as (tok & Ht' & Hs & _).
  congruence.
Qed.

(** ** Replaying an insert *)

Lemma same_id_own i d : doc_get "_id" d = Some i -> same_id i d = true.
Proof. unfold same_id. intros ->. apply value_eqb_refl. Qed.

Lemma dest_coll_state ns st st' c :
  _dest_coll ns st = (Ok c, st) -> _dest_coll ns st' = (Ok c, st').
Proof. rewrite !dest_coll_eq. by intros [= ->]. Qed.

(** C1 (as the code has it).  Once an insert record whose document has an
    [_id] has been applied, applying it again raises, and changes no
    collection: the destination stays as the first application left it.
    When the server accepts the write, the exception is the driver's
    [DuplicateKeyError]. *)
Theorem second_insert_is_refused ns id obj raw st st1 o :
  doc_get "o" raw = Some (VDoc o) ->
  doc_has "_id" o = true ->
  insert ns id obj raw st = (Ok tt, st1) ->
  exists e st2,
    insert ns id obj raw st1 = (Raise e, st2)
    /\ colls (dest st2) = colls (dest st1)
    /\ (healthy (dest st1) = true -> e = DuplicateKeyError).
Proof.
  intros Ho Hid H.
  destruct (dest_coll_cases ns st) as [[coll Hc] | [e0 Hc]];
    [ | unfold insert, bind in H; rewrite Hc in H; discriminate].
  pose proof (dest_coll_state _ _ st1 _ Hc) as Hc1.
  unfold insert in *. unfold bind at 1. unfold bind at 1 in H.
  rewrite Hc in H. rewrite Hc1. rewrite bind_getitem, Ho in *.
  unfold Collection_insert, as_doc, bind, ret, Collection_write, srv_write in *.
  unfold doc_has in Hid. destruct (doc_get "_id" o) as [i | ] eqn:Ei;
    [ | discriminate].
  assert (Hdocs : exists docs, the_docs coll (dest st1) = docs ++ [o]).
  { destruct (next_verdict (dest st)) as [[ | ] s1]; [discriminate | ].
    unfold srv_insert in H. rewrite Ei in H.
    destruct (existsb _ _); [discriminate | ].
    injection H as <-. simpl. rewrite the_docs_set_docs. by eexists. }
  destruct Hdocs as [docs Hdocs].
  pose proof (next_verdict_colls (dest st1)) as Hcolls.
  pose proof (the_docs_next_verdict coll (dest st1)) as Hd.
  pose proof (next_verdict_healthy (dest st1)) as Hh.
  destruct (next_verdict (dest st1)) as [[ | ] s2]; simpl in *.
  - do 2 eexists. split; [done | ]. split; [done | ].
    intros Hh1. by destruct (Hh Hh1).
  - unfold srv_insert. rewrite Ei, Hd, Hdocs.
    rewrite existsb_app. simpl. rewrite (same_id_own _ _ Ei).
    rewrite orb_true_r. by do 2 eexists.
Qed.

(** ** The order of the steps of [process_op] *)

(** C2 (as the code has it).  When the handler raises, [process_op] raises
    the same exception and nothing has moved: no collection, so not the
    checkpoint, nor the count, nor the log.  When the handler returns,
    [process_op] first saves the checkpoint, with the record's token as the
    timestamp, then adds one to the count in the state the save left, then,
    in the state the count left, writes the progress report if the new
    count is a multiple of 100, a cadence fixed in the code; so the count
    is one more, the stored checkpoint is the record's token when the
    server accepted the writes, and the report shows the new count and the
    lag of the record's token. *)
Theorem apply_then_checkpoint_then_count ns op id raw st :
  (forall e st1,
     dispatch ns op id raw st = (Raise e, st1) ->
     process_op ns op id raw st = (Raise e, st1)
     /\ colls (dest st1) = colls (dest st)
     /\ stored_checkpoint st1 = stored_checkpoint st
     /\ _replay_count st1 = _replay_count st
     /\ debug_log st1 = debug_log st)
  /\ (forall st1 tok,
        dispatch ns op id raw st = (Ok tt, st1) ->
        doc_get "ts" raw = Some tok ->
        let saved := (_update_lastts (set_ts tok st1)).2 in
        let counted := set_replay_count (_replay_count saved + 1) saved in
        let st' := (process_op ns op id raw st).2 in
        process_op ns op id raw st
        = (if _replay_count counted mod 100 =? 0
           then print_replication_info counted
           else (Ok tt, counted))
        /\ _replay_count st' = _replay_count st + 1
        /\ (healthy (dest st) = true -> stored_checkpoint st' = Some tok)
        /\ debug_log st'
           = debug_log st ++
             (if (_replay_count st + 1) mod 100 =? 0
              then match tok with
                   | VTimestamp time _ =>
                       [Synced (clock st - time);
                        Replayed (clock st) (_replay_count st + 1)]
                   | _ => []
                   end
              else [])).
Proof.
  destruct (dispatch_effect ns op id raw st) as (coll & _ & Hst & Hh & He & _).
  split.
  - intros e st1 Hd. rewrite Hd in *. simpl in *.
    rewrite process_op_eq, Hd. specialize (He e eq_refl).
    repeat split; trivial; try (by rewrite Hst).
    unfold stored_checkpoint, the_docs. rewrite He. by rewrite Hst.
  - intros st1 tok Hd Ht. rewrite Hd in *. simpl in *.
    assert (Hid : _lastts_id st1 = _lastts_id st) by (by rewrite Hst).
    assert (Hn : _replay_count st1 = _replay_count st) by (by rewrite Hst).
    assert (Hl : debug_log st1 = debug_log st) by (by rewrite Hst).
    assert (Hk : clock st1 = clock st) by (by rewrite Hst).
    rewrite (process_op_applied _ _ _ _ _ _ _ Hd Ht), update_lastts_eq, Hn.
    assert (Hs : healthy (dest st) = true ->
                 stored_checkpoint (applied tok st1) = Some tok).
    { intros Hh0. specialize (Hh Hh0).
      pose proof (stored_after_save (set_ts tok st1)) as Hs. simpl in Hs.
      rewrite <- Hs by (by apply next_verdict_healthy).
      by apply stored_checkpoint_same. }
    unfold applied in *. simpl in Hs |- *. rewrite Hn in Hs |- *.
    split; [done | ].
    destruct (_ =? 0).
    + rewrite print_replication_info_eq. simpl.
      destruct tok; simpl; repeat split; trivial;
        by rewrite ?Hn, ?Hl, ?Hk, <- ?app_assoc, ?app_nil_r.
    + simpl. repeat split; trivial; by rewrite ?Hn, ?Hl, ?app_nil_r.
Qed.

Example sample_run :
  map stored_checkpoint
    (run [insert_entry 1 1318432261; insert_entry 2 1318432339;
          delete_entry 1 1318432375] sample)
  = [Some (VTimestamp 1318432261 1); Some (VTimestamp 1318432339 1);
     Some (VTimestamp 1318432375 1)].
Proof. reflexivity. Qed.

(** ** The properties on the sample *)

(** The replayed insert of the sample raises [DuplicateKeyError]: the
    duplicate key is reported as a failure of the handler. *)
Lemma replayed_insert_raises :
  let c := insert_entry 16 1318432375 in
  let once := insert (c_ns c) (c_id c) (VDoc (tweet 16)) (c_raw c) sample in
  let twice := insert (c_ns c) (c_id c) (VDoc (tweet 16)) (c_raw c) once.2 in
  once.1 = Ok tt /\ twice.1 = Raise DuplicateKeyError /\ twice.1 <> Ok tt.
Proof. by vm_compute. Qed.

Lemma second_insert_is_refused_witness :
  let c := insert_entry 16 1318432375 in
  let st1 := (insert (c_ns c) (c_id c) (VDoc (tweet 16)) (c_raw c) sample).2 in
  exists e st2,
    insert (c_ns c) (c_id c) (VDoc (tweet 16)) (c_raw c) st1 = (Raise e, st2)
    /\ colls (dest st2) = colls (dest st1)
    /\ (healthy (dest st1) = true -> e = DuplicateKeyError).
Proof.
  cbv zeta.
  apply (second_insert_is_refused _ _ _ _ sample _ (tweet 16)); reflexivity.
Defined.

(** With the cadence set to 50 the fiftieth record is reported; the code,
    which has no such setting, reports nothing there. *)
Lemma progress_cadence_is_fixed :
  let st := set_replay_count 49 sample in
  debug_log (spec_process_op 50 "mydb.tweets" "i" (VObjectId 16)
               (c_raw (insert_entry 16 1318432375)) st).2
  = [Synced 25; Replayed 1318432400 50]
  /\ debug_log (process (insert_entry 16 1318432375) st).2 = [].
Proof. by vm_compute. Qed.

Lemma apply_then_checkpoint_then_count_witness :
  let c := insert_entry 16 1318432375 in
  let st := set_replay_count 99 sample in
  let st' := (process c st).2 in
  (process c st).1 = Ok tt
  /\ _replay_count st' = 100
  /\ stored_checkpoint st' = Some (VTimestamp 1318432375 1)
  /\ debug_log st' = [Synced 25; Replayed 1318432400 100].
Proof.
  cbv zeta.
  destruct (apply_then_checkpoint_then_count "mydb.tweets" "i"
              (VObjectId 16) (c_raw (insert_entry 16 1318432375))
              (set_replay_count 99 sample)) as [_ H].
  destruct (H (dispatch "mydb.tweets" "i" (VObjectId 16)
                 (c_raw (insert_entry 16 1318432375))
                 (set_replay_count 99 sample)).2
              (VTimestamp 1318432375 1) eq_refl eq_refl)
    as (Hp & Hn & Hs & Hl).
  split.
  { change (process _ _)
      with (process_op "mydb.tweets" "i" (VObjectId 16)
              (c_raw (insert_entry 16 1318432375))
              (set_replay_count 99 sample)).
    rewrite Hp. reflexivity. }
  split; [apply Hn | ].
  split; [apply Hs; reflexivity | apply Hl].
Defined.

(** The failing input of C3: the server accepts the insert and refuses the
    write of the checkpoint that follows.  [process_op] returns normally,
    the record is applied and counted, and no checkpoint is stored. *)
Lemma lost_checkpoint_goes_unnoticed :
  let r := process (insert_entry 16 1318432375) (sample_with [false; true]) in
  r.1 = Ok tt
  /\ the_docs ("mydb"%string, "tweets"%string) (dest r.2) = [tweet 16]
  /\ _replay_count r.2 = 1
  /\ stored_checkpoint r.2 = None.
Proof. by vm_compute. Qed.

(** C4 (the code does otherwise).  A run of two records in which the
    server accepts the two inserts and the save of the first checkpoint and
    refuses the save of the second: the refusal is not raised, so the run
    goes on, both records are applied and counted, and the stored
    checkpoint is still the token of the first record, not the token of
    the record applied last. *)
Theorem checkpoint_lags_after_a_refused_save :
  let first := insert_entry 1 1318432261 in
  let second := insert_entry 2 1318432339 in
  exists st1 st2,
    run [first; second] (sample_with [false; false; false; true]) = [st1; st2]
    /\ the_docs ("mydb"%string, "tweets"%string) (dest st2)
       = [tweet 1; tweet 2]
    /\ _replay_count st2 = 2
    /\ stored_checkpoint st2 = Some (token first)
    /\ stored_checkpoint st2 <> Some (token second).
Proof. cbv zeta. do 2 eexists. by vm_compute. Qed.

Lemma refused_save_is_not_raised_witness :
  exists st',
    _update_lastts (sample_with [true]) = (Ok tt, st')
    /\ colls (dest st') = colls (dest (sample_with [true]))
    /\ stored_checkpoint st' = stored_checkpoint (sample_with [true]).
Proof. apply (refused_save_is_not_raised (sample_with [true]) []). reflexivity. Defined.

Lemma checkpoint_follows_the_last_applied_witness :
  let feed := [insert_entry 1 1318432261; insert_entry 2 1318432339;
               delete_entry 1 1318432375] in
  (forall k st', run feed sample !! k = Some st' ->
     exists c, feed !! k = Some c /\ stored_checkpoint st' = Some (token c))
  /\ (forall i j sti stj a b,
        (i < j)%nat ->
        (sample :: run feed sample) !! i = Some sti ->
        (sample :: run feed sample) !! j = Some stj ->
        stored_checkpoint sti = Some a ->
        stored_checkpoint stj = Some b ->
        token_le a b).
Proof.
  cbv zeta. apply checkpoint_follows_the_last_applied.
  - reflexivity.
  - simpl. repeat constructor; simpl; lia.
  - intros t H. vm_compute in H. discriminate.
Defined.

Lemma missing_target_is_a_noop_witness :
  let c := update_entry 97 1318432339 in
  let st := (process (insert_entry 6 1318432261) sample).2 in
  exists st1 st',
    dispatch (c_ns c) (c_op c) (c_id c) (c_raw c) st = (Ok tt, st1)
    /\ colls (dest st1) = colls (dest st)
    /\ process_op (c_ns c) (c_op c) (c_id c) (c_raw c) st = (Ok tt, st')
    /\ stored_checkpoint st' = Some (VTimestamp 1318432339 1).
Proof.
  cbv zeta.
  apply (missing_target_is_a_noop _ _ _ _ _
           ("mydb"%string, "tweets"%string) [("nr"%string, VInt 97)]).
  - reflexivity.
  - reflexivity.
  - left. split; [reflexivity | split; [reflexivity | by eexists]].
  - reflexivity.
  - reflexivity.
Defined.

Lemma save_is_an_idempotent_upsert_witness :
  let t := VTimestamp 1318432375 1 in
  let saver := set_ts t sample in
  _get_lastts sample = (Ok VNone, sample)
  /\ exists st1 st2,
       _update_lastts saver = (Ok tt, st1)
       /\ _update_lastts st1 = (Ok tt, st2)
       /\ colls (dest st2) = colls (dest st1)
       /\ length (List.filter (same_id (VStr "testsource-lastts"))
                    (the_docs settings (dest st1))) = 1%nat
       /\ _get_lastts (set_dest (dest st1) sample)
          = (Ok t, set_dest (dest st1) sample).
Proof.
  cbv zeta. split; [reflexivity | ].
  destruct (save_is_an_idempotent_upsert
              (set_ts (VTimestamp 1318432375 1) sample) eq_refl)
    as (st1 & st2 & H1 & H2 & _ & H3 & H4 & H5).
  exists st1, st2. split; [exact H1 | ]. split; [exact H2 | ].
  split; [exact H3 | ]. split; [exact H4 | ].
  apply H5; reflexivity.
Defined.

Lemma load_returns_the_token_or_nothing_witness :
  _get_lastts sample = (Ok VNone, sample)
  /\ exists tok,
       doc_get "ts" (c_raw (insert_entry 16 1318432375)) = Some tok
       /\ _get_lastts (process (insert_entry 16 1318432375) sample).2
          = (Ok tok, (process (insert_entry 16 1318432375) sample).2).
Proof.
  destruct (load_returns_the_token_or_nothing sample) as (Hnone & _ & Hlast).
  split.
  - apply Hnone. reflexivity.
  - apply (Hlast "mydb.tweets"%string "i"%string (VObjectId 16)); reflexivity.
Defined.

(** The namespaces [mydb.] and [.tweets] have a dot and do not resolve. *)
Lemma dotted_namespace_does_not_resolve :
  contains "." "mydb." = true
  /\ _dest_coll "mydb." sample = (Raise InvalidName, sample)
  /\ contains "." ".tweets" = true
  /\ _dest_coll ".tweets" sample = (Raise InvalidName, sample)
  /\ insert "mydb." (VObjectId 16) VNone (c_raw (insert_entry 16 1318432375))
       sample
     = (Raise InvalidName, sample).
Proof. by vm_compute. Qed.

Lemma dest_coll_splits_at_first_dot_witness :
  (exists db collection,
     "mydb.system.indexes"%string
     = String.append db (String "." collection)
     /\ contains "." db = false
     /\ _dest_coll "mydb.system.indexes" sample
        = (if check_database_name db && check_collection_name collection
           then Ok (db, collection)
           else Raise InvalidName, sample))
  /\ _dest_coll "tweets" sample = (Raise ValueError, sample)
  /\ delete "my db.tweets" VNone [] sample = (Raise InvalidName, sample).
Proof.
  destruct (dest_coll_splits_at_first_dot "mydb.system.indexes" sample)
    as (H1 & _ & _).
  destruct (dest_coll_splits_at_first_dot "tweets" sample) as (_ & H2 & _).
  destruct (dest_coll_splits_at_first_dot "my db.tweets" sample)
    as (_ & _ & H3).
  split; [apply H1; reflexivity | ].
  split; [apply H2; reflexivity | ].
  apply (H3 InvalidName eq_refl VNone VNone []).
Defined.

Lemma process_op_frame_witness :
  let st := (process (insert_entry 6 1318432261) sample).2 in
  let st' := (process (delete_entry 6 1318432339) st).2 in
  colls (dest st') !! ("mydb"%string, "users"%string)
  = colls (dest st) !! ("mydb"%string, "users"%string)
  /\ List.filter (fun d => negb (same_id (VStr (_lastts_id st)) d))
       (the_docs settings (dest st'))
     = List.filter (fun d => negb (same_id (VStr (_lastts_id st)) d))
         (the_docs settings (dest st)).
Proof.
  cbv zeta.
  destruct (process_op_frame "mydb.tweets" "d" (VObjectId 6)
              (c_raw (delete_entry 6 1318432339))
              (process (insert_entry 6 1318432261) sample).2) as [Hc Hs].
  split.
  - apply Hc; [done | ]. vm_compute. discriminate.
  - apply Hs. vm_compute. discriminate.
Defined.

(** * Further properties of the handlers and of the checkpoint *)

(** ** Resolving a namespace *)

Lemma split1_joined sep h t :
  contains sep h = false ->
  split1 sep (String.append h (String sep t)) = [h; t].
Proof.
  induction h as [ | a r IH]; simpl.
  - intros _. by rewrite Ascii.eqb_refl.
  - intros H. apply orb_false_iff in H as [Ha Hr]. by rewrite Ha, IH.
Qed.

Lemma database_name_has_no_dot db :
  check_database_name db = true -> contains "." db = false.
Proof.
  unfold check_database_name. intros H. apply orb_true_iff in H as [H | H].
  - apply String.eqb_eq in H. by subst.
  - apply andb_true_iff in H as [_ H]. cbn [forallb] in H.
    apply andb_true_iff in H as [_ H]. apply andb_true_iff in H as [H _].
    by apply negb_true_iff in H.
Qed.

(** [_dest_coll] undoes the joining, with a dot, of a database name and a
    collection name that the driver accepts; a namespace that resolves is
    the joining of what it resolves to, so two namespaces that resolve to
    the same collection are the same. *)
Theorem dest_coll_inverts_joining (st : state) :
  (forall db collection,
     check_database_name db = true ->
     check_collection_name collection = true ->
     _dest_coll (String.append db (String "." collection)) st
     = (Ok (db, collection), st))
  /\ (forall ns ns' c,
        _dest_coll ns st = (Ok c, st) ->
        _dest_coll ns' st = (Ok c, st) ->
        ns = ns').
Proof.
  split.
  - intros db collection Hdb Hc.
    rewrite dest_coll_eq, split1_joined, Hdb, Hc; trivial.
    by apply database_name_has_no_dot.
  - assert (Hj : forall ns c, _dest_coll ns st = (Ok c, st) ->
                   ns = String.append c.1 (String "." c.2)).
    { intros ns c. rewrite dest_coll_eq.
      destruct (contains "." ns) eqn:E.
      - destruct (split1_with _ _ E) as (h & t & -> & Hns & _).
        destruct (_ && _); [ | discriminate]. by intros [= <-].
      - rewrite (split1_without _ _ E). discriminate. }
    intros ns ns' c H H'. by rewrite (Hj _ _ H), (Hj _ _ H').
Qed.

Lemma dest_coll_inverts_joining_witness :
  _dest_coll "mydb.system.indexes" sample
  = (Ok ("mydb"%string, "system.indexes"%string), sample).
Proof.
  destruct (dest_coll_inverts_joining sample) as [H _].
  apply (H "mydb"%string "system.indexes"%string); reflexivity.
Defined.

(** ** What the handlers send *)

Lemma insert_eq ns id obj raw st coll o :
  _dest_coll ns st = (Ok coll, st) ->
  doc_get "o" raw = Some (VDoc o) ->
  insert ns id obj raw st = Collection_write (srv_insert coll o) true st.
Proof.
  intros Hc Ho. unfold insert. unfold bind at 1. rewrite Hc.
  by rewrite bind_getitem, Ho.
Qed.

Lemma update_eq ns id mod_ raw st coll sel md :
  _dest_coll ns st = (Ok coll, st) ->
  doc_get "o2" raw = Some (VDoc sel) ->
  doc_get "o" raw = Some (VDoc md) ->
  update ns id mod_ raw st
  = Collection_write (srv_update coll sel md false) true st.
Proof.
  intros Hc Ho2 Ho. unfold update. unfold bind at 1. rewrite Hc.
  by rewrite bind_getitem, Ho2, bind_getitem, Ho.
Qed.

Lemma delete_eq ns id raw st coll sel :
  _dest_coll ns st = (Ok coll, st) ->
  doc_get "o" raw = Some (VDoc sel) ->
  delete ns id raw st = Collection_write (srv_remove coll sel) true st.
Proof.
  intros Hc Ho. unfold delete. unfold bind at 1. rewrite Hc.
  by rewrite bind_getitem, Ho.
Qed.

Lemma Collection_write_healthy w st :
  healthy (dest st) = true ->
  Collection_write w true st
  = (match (w (next_verdict (dest st)).2).1 with
     | Some e => Raise e
     | None => Ok tt
     end, set_dest (w (next_verdict (dest st)).2).2 st).
Proof.
  intros Hh. destruct (next_verdict_healthy _ Hh) as [Hv _].
  unfold Collection_write, srv_write.
  destruct (next_verdict (dest st)) as [b s1]; simpl in *. subst b.
  by destruct (w s1) as [[e | ] s2].
Qed.

Lemma Collection_write_refused w st r :
  rejections (dest st) = true :: r ->
  exists st', Collection_write w true st = (Raise OperationFailure, st')
              /\ colls (dest st') = colls (dest st).
Proof.
  intros Hr. unfold Collection_write, srv_write, next_verdict. rewrite Hr.
  by eexists.
Qed.

(** A write that the server refuses makes each of the three handlers raise
    [OperationFailure], and no collection has changed; this for a record
    whose payload the driver encodes, the keys of an inserted document and
    of a replacement checked. *)
Theorem refused_write_is_raised_by_each_handler ns id v st coll r :
  _dest_coll ns st = (Ok coll, st) ->
  rejections (dest st) = true :: r ->
  (forall raw o,
     doc_get "o" raw = Some (VDoc o) ->
     encodable true (VDoc o) = true ->
     exists st', insert ns id v raw st = (Raise OperationFailure, st')
                 /\ colls (dest st') = colls (dest st))
  /\ (forall raw sel md,
        doc_get "o2" raw = Some (VDoc sel) ->
        doc_get "o" raw = Some (VDoc md) ->
        encodable false (VDoc sel) = true ->
        encodable (update_checks_keys md) (VDoc md) = true ->
        exists st', update ns id v raw st = (Raise OperationFailure, st')
                    /\ colls (dest st') = colls (dest st))
  /\ (forall raw sel,
        doc_get "o" raw = Some (VDoc sel) ->
        encodable false (VDoc sel) = true ->
        exists st', delete ns id raw st = (Raise OperationFailure, st')
                    /\ colls (dest st') = colls (dest st)).
Proof.
  intros Hc Hr. split; [ | split].
  - intros raw o Ho _. rewrite (insert_eq _ _ _ _ _ _ _ Hc Ho).
    by eapply Collection_write_refused.
  - intros raw sel md Ho2 Ho _ _.
    rewrite (update_eq _ _ _ _ _ _ _ _ Hc Ho2 Ho).
    by eapply Collection_write_refused.
  - intros raw sel Ho _. rewrite (delete_eq _ _ _ _ _ _ Hc Ho).
    by eapply Collection_write_refused.
Qed.

Lemma refused_write_is_raised_by_each_handler_witness :
  let i := insert_entry 6 1318432261 in
  let u := update_entry 6 1318432339 in
  let d := delete_entry 6 1318432375 in
  let st := sample_with [true] in
  (exists st', insert (c_ns i) (c_id i) VNone (c_raw i) st
               = (Raise OperationFailure, st')
               /\ colls (dest st') = colls (dest st))
  /\ (exists st', update (c_ns u) (c_id u) VNone (c_raw u) st
                  = (Raise OperationFailure, st')
                  /\ colls (dest st') = colls (dest st))
  /\ (exists st', delete (c_ns d) (c_id d) (c_raw d) st
                  = (Raise OperationFailure, st')
                  /\ colls (dest st') = colls (dest st)).
Proof.
  cbv zeta.
  destruct (refused_write_is_raised_by_each_handler "mydb.tweets"
              (VObjectId 6) VNone (sample_with [true])
              ("mydb"%string, "tweets"%string) [] eq_refl eq_refl)
    as (Hi & Hu & Hd).
  split; [apply (Hi _ (tweet 6)); reflexivity | ].
  split.
  - apply (Hu _ [("nr"%string, VInt 6)]
              [("$set"%string, VDoc [("content"%string, VStr "newContent")])]);
      reflexivity.
  - apply (Hd _ [("_id"%string, VObjectId 6)]); reflexivity.
Defined.

(** A record without the field a handler reads makes the handler raise
    [KeyError] for that field, the selector [o2] before the update document
    [o], and nothing is sent to the server: the state is as it was. *)
Theorem missing_field_is_a_key_error ns id v raw st coll :
  _dest_coll ns st = (Ok coll, st) ->
  (doc_get "o" raw = None ->
   insert ns id v raw st = (Raise (KeyError "o"), st)
   /\ delete ns id raw st = (Raise (KeyError "o"), st))
  /\ (doc_get "o2" raw = None ->
      update ns id v raw st = (Raise (KeyError "o2"), st))
  /\ (forall o2, doc_get "o2" raw = Some o2 -> doc_get "o" raw = None ->
      update ns id v raw st = (Raise (KeyError "o"), st)).
Proof.
  intros Hc. split; [ | split].
  - intros H. split.
    + unfold insert. unfold bind at 1. rewrite Hc.
      by rewrite bind_getitem, H.
    + unfold delete. unfold bind at 1. rewrite Hc.
      by rewrite bind_getitem, H.
  - intros H. unfold update. unfold bind at 1. rewrite Hc.
    by rewrite bind_getitem, H.
  - intros o2 H2 H. unfold update. unfold bind at 1. rewrite Hc.
    by rewrite bind_getitem, H2, bind_getitem, H.
Qed.

Lemma missing_field_is_a_key_error_witness :
  let raw := [("ts"%string, VTimestamp 1318432339 1)] in
  update "mydb.tweets" VNone VNone raw sample
  = (Raise (KeyError "o2"), sample).
Proof.
  cbv zeta.
  destruct (missing_field_is_a_key_error "mydb.tweets" VNone VNone
              [("ts"%string, VTimestamp 1318432339 1)] sample
              ("mydb"%string, "tweets"%string) eq_refl) as (_ & H & _).
  apply H. reflexivity.
Defined.

(** ** Inserting *)








(** ** Updating *)

Lemma update_first_shape spec md docs e docs' :
  update_first spec md docs = Some (e, docs') ->
  exists pre d post,
    docs = pre ++ d :: post
    /\ forallb (fun x => negb (matches spec x)) pre = true
    /\ matches spec d = true
    /\ ((e = None /\ exists d', apply_mod md d = Some d'
                                /\ docs' = pre ++ d' :: post)
        \/ (e = Some OperationFailure /\ docs' = docs)).
Proof.
  revert docs'. induction docs as [ | d r IH]; intros docs'; simpl;
    [discriminate | ].
  destruct (matches spec d) eqn:E.
  - intros [= He]. exists [], d, r. repeat split; trivial.
    destruct (apply_mod md d) as [d' | ];
      [destruct (option_value_eqb _ _) | ];
      injection He as <- <-; try (by right). left. split; [done | ].
    by exists d'.
  - destruct (update_first spec md r) as [[e0 r'] | ]; [ | discriminate].
    intros [= -> <-].
    destruct (IH r' eq_refl) as (pre & x & post & -> & Hpre & Hx & Hcase).
    exists (d :: pre), x, post. simpl. rewrite E. repeat split; trivial.
    destruct Hcase as [(-> & d' & Hd' & ->) | (-> & ->)].
    + left. split; [done | ]. by exists d'.
    + by right.
Qed.

Lemma srv_update_plain coll sel md s :
  let s' := (srv_update coll sel md false s).2 in
  (forall c, length (the_docs c s') = length (the_docs c s))
  /\ (the_docs coll s' = the_docs coll s
      \/ exists pre d d' post,
           the_docs coll s = pre ++ d :: post
           /\ the_docs coll s' = pre ++ d' :: post
           /\ forallb (fun x => negb (matches sel x)) pre = true
           /\ matches sel d = true
           /\ apply_mod md d = Some d').
Proof.
  cbv zeta. unfold srv_update.
  destruct (update_first sel md (the_docs coll s)) as [[e docs'] | ] eqn:E;
    simpl; [ | split; [done | by left]].
  destruct (update_first_shape _ _ _ _ _ E)
    as (pre & d & post & Hdocs & Hpre & Hm & Hcase).
  destruct Hcase as [(-> & d' & Hd' & ->) | (-> & ->)]; simpl;
    [ | split; [done | by left]].
  split.
  - intros c. destruct (decide (c = coll)) as [-> | Hne].
    + rewrite the_docs_set_docs, Hdocs. by rewrite !length_app.
    + unfold the_docs at 1. simpl. by rewrite lookup_insert_ne.
  - right. exists pre, d, d', post. rewrite the_docs_set_docs.
    by repeat split.
Qed.

(** An update whose selector is one of equalities never adds or removes a
    document, in any collection, and it rewrites at most one: the first of
    the collection that satisfies the selector, other matches included
    among those left as they are. *)
Theorem update_rewrites_at_most_the_first_match
    ns id mod_ raw st coll sel md :
  _dest_coll ns st = (Ok coll, st) ->
  doc_get "o2" raw = Some (VDoc sel) ->
  doc_get "o" raw = Some (VDoc md) ->
  equality_selector sel = true ->
  let st' := (update ns id mod_ raw st).2 in
  (forall c, length (the_docs c (dest st')) = length (the_docs c (dest st)))
  /\ (the_docs coll (dest st') = the_docs coll (dest st)
      \/ exists pre d d' post,
           the_docs coll (dest st) = pre ++ d :: post
           /\ the_docs coll (dest st') = pre ++ d' :: post
           /\ forallb (fun x => negb (matches sel x)) pre = true
           /\ matches sel d = true).
Proof.
  intros Hc Ho2 Ho _. cbv zeta. rewrite (update_eq _ _ _ _ _ _ _ _ Hc Ho2 Ho).
  assert (Hd : forall c, the_docs c (next_verdict (dest st)).2
                         = the_docs c (dest st))
    by (intros c; apply the_docs_next_verdict).
  pose proof (srv_update_plain coll sel md (next_verdict (dest st)).2) as Hu.
  cbv zeta in Hu. unfold Collection_write, srv_write.
  destruct (next_verdict (dest st)) as [[ | ] s1]; simpl in *.
  - split; [intros c; by rewrite Hd | left; by rewrite Hd].
  - destruct (srv_update coll sel md false s1) as [err s2]; simpl in *.
    destruct Hu as [Hlen Hcase]. split.
    + intros c. by rewrite Hlen, Hd.
    + rewrite <- (Hd coll).
      destruct Hcase as [Hcase | (pre & d & d' & post & H1 & H2 & H3 & H4 & _)];
        [by left | right]. by exists pre, d, d', post.
Qed.

Lemma update_rewrites_at_most_the_first_match_witness :
  let c := update_entry 6 1318432339 in
  let st := (process (insert_entry 6 1318432261)
               (process (insert_entry 5 1318432200) sample).2).2 in
  let st' := (update (c_ns c) (c_id c) VNone (c_raw c) st).2 in
  length (the_docs ("mydb"%string, "tweets"%string) (dest st'))
  = length (the_docs ("mydb"%string, "tweets"%string) (dest st))
  /\ exists pre d d' post,
       the_docs ("mydb"%string, "tweets"%string) (dest st) = pre ++ d :: post
       /\ the_docs ("mydb"%string, "tweets"%string) (dest st')
          = pre ++ d' :: post
       /\ forallb (fun x => negb (matches [("nr"%string, VInt 6)] x)) pre
          = true
       /\ matches [("nr"%string, VInt 6)] d = true.
Proof.
  cbv zeta.
  destruct (update_rewrites_at_most_the_first_match "mydb.tweets" (VObjectId 6)
              VNone (c_raw (update_entry 6 1318432339))
              (process (insert_entry 6 1318432261)
                 (process (insert_entry 5 1318432200) sample).2).2
              ("mydb"%string, "tweets"%string) [("nr"%string, VInt 6)]
              [("$set"%string, VDoc [("content"%string, VStr "newContent")])]
              eq_refl eq_refl eq_refl eq_refl) as [Hlen Hcase].
  split; [apply Hlen | ].
  destruct Hcase as [Hsame | (pre & d & d' & post & H1 & H2 & H3 & H4)].
  - vm_compute in Hsame. discriminate.
  - by exists pre, d, d', post.
Defined.

(** ** Deleting *)

Lemma filter_filter_same {A} (p : A -> bool) (l : list A) :
  List.filter p (List.filter p l) = List.filter p l.
Proof.
  induction l as [ | x r IH]; simpl; [done | ].
  destruct (p x) eqn:E; simpl; by rewrite ?E, IH.
Qed.

Lemma srv_remove_docs coll sel s :
  the_docs coll (srv_remove coll sel s).2
  = List.filter (fun d => negb (matches sel d)) (the_docs coll s).
Proof.
  unfold srv_remove, the_docs.
  destruct (colls s !! coll) as [docs | ] eqn:E; simpl.
  - by rewrite lookup_insert_eq.
  - by rewrite E.
Qed.

Lemma srv_remove_again coll sel s :
  colls (srv_remove coll sel (srv_remove coll sel s).2).2
  = colls (srv_remove coll sel s).2.
Proof.
  unfold srv_remove.
  destruct (colls s !! coll) as [docs | ] eqn:E; simpl.
  - rewrite lookup_insert_eq. simpl.
    by rewrite filter_filter_same, insert_insert_eq.
  - by rewrite E.
Qed.

Lemma srv_remove_colls coll sel s t :
  colls s = colls t ->
  colls (srv_remove coll sel s).2 = colls (srv_remove coll sel t).2.
Proof.
  intros H. unfold srv_remove. rewrite H.
  destruct (colls t !! coll); simpl; by rewrite ?H.
Qed.

Lemma srv_remove_rejections coll sel s :
  rejections (srv_remove coll sel s).2 = rejections s.
Proof. apply (sw_rejections _ _ (srv_remove_write coll sel)). Qed.

(** A delete on a server that accepts the writes returns, and leaves of the
    collection the documents that do not satisfy the selector, all of them
    and in their order; a second delete of the same record returns as well
    and changes no collection. *)
Theorem delete_removes_every_match ns id raw st coll sel :
  healthy (dest st) = true ->
  _dest_coll ns st = (Ok coll, st) ->
  doc_get "o" raw = Some (VDoc sel) ->
  exists st' st'',
    delete ns id raw st = (Ok tt, st')
    /\ the_docs coll (dest st')
       = List.filter (fun d => negb (matches sel d)) (the_docs coll (dest st))
    /\ delete ns id raw st' = (Ok tt, st'')
    /\ colls (dest st'') = colls (dest st').
Proof.
  intros Hh Hc Ho.
  pose proof (dest_coll_state _ _ (set_dest (srv_remove coll sel
                (next_verdict (dest st)).2).2 st) _ Hc) as Hc'.
  assert (Hh' : healthy (srv_remove coll sel (next_verdict (dest st)).2).2
                = true).
  { unfold healthy. rewrite srv_remove_rejections.
    by apply next_verdict_healthy. }
  do 2 eexists.
  rewrite (delete_eq _ _ _ _ _ _ Hc Ho), Collection_write_healthy by done.
  rewrite (delete_eq _ _ _ _ _ _ Hc' Ho), Collection_write_healthy by done.
  assert (Hnone : forall s, (srv_remove coll sel s).1 = None).
  { intros s. unfold srv_remove. by destruct (colls s !! coll). }
  rewrite !Hnone. repeat split.
  - simpl. by rewrite srv_remove_docs, the_docs_next_verdict.
  - simpl.
    rewrite (srv_remove_colls _ _ _ _ (next_verdict_colls _)).
    apply srv_remove_again.
Qed.

Lemma delete_removes_every_match_witness :
  let c := delete_entry 6 1318432339 in
  let st := (process (insert_entry 6 1318432261) sample).2 in
  exists st' st'',
    delete (c_ns c) (c_id c) (c_raw c) st = (Ok tt, st')
    /\ the_docs ("mydb"%string, "tweets"%string) (dest st')
       = List.filter
           (fun d => negb (matches [("_id"%string, VObjectId 6)] d))
           (the_docs ("mydb"%string, "tweets"%string) (dest st))
    /\ delete (c_ns c) (c_id c) (c_raw c) st' = (Ok tt, st'')
    /\ colls (dest st'') = colls (dest st').
Proof.
  cbv zeta. apply delete_removes_every_match; reflexivity.
Defined.

(** ** An insert undone by a delete *)







(** ** Replaying an update *)

Lemma doc_set_overwrite k v w d : doc_set k v (doc_set k w d) = doc_set k v d.
Proof.
  induction d as [ | [k0 v0] r IH]; simpl.
  - by rewrite String.eqb_refl.
  - destruct (String.eqb k0 k) eqn:E; simpl; rewrite E; [done | by rewrite IH].
Qed.

Lemma doc_has_cons k k0 v0 r :
  doc_has k ((k0, v0) :: r) = String.eqb k0 k || doc_has k r.
Proof. unfold doc_has. simpl. by destruct (String.eqb k0 k). Qed.

Lemma doc_has_set k k' v d :
  doc_has k' (doc_set k v d) = String.eqb k k' || doc_has k' d.
Proof.
  induction d as [ | [k0 v0] r IH]; simpl.
  - rewrite doc_has_cons. by destruct (String.eqb k k').
  - destruct (String.eqb k0 k) eqn:E; rewrite !doc_has_cons.
    + apply String.eqb_eq in E. subst k0. by destruct (String.eqb k k').
    + rewrite IH. by destruct (String.eqb k0 k'), (String.eqb k k').
Qed.

(** Two assignments to different fields commute when the first of them is
    to a field the document has. *)
Lemma doc_set_comm k k' v v' d :
  k <> k' -> doc_has k' d = true ->
  doc_set k v (doc_set k' v' d) = doc_set k' v' (doc_set k v d).
Proof.
  intros Hne. induction d as [ | [k0 v0] r IH]; [done | ].
  rewrite doc_has_cons. simpl.
  destruct (String.eqb k0 k') eqn:E'; destruct (String.eqb k0 k) eqn:E;
    simpl; rewrite ?E, ?E'; try done.
  - apply String.eqb_eq in E, E'. congruence.
  - intros H. by rewrite IH.
Qed.

Lemma apply_set_cons k v fs d :
  apply_set ((k, v) :: fs) d = apply_set fs (doc_set k v d).
Proof. done. Qed.

Lemma apply_set_snoc k v fs d :
  apply_set (fs ++ [(k, v)]) d = doc_set k v (apply_set fs d).
Proof. unfold apply_set. by rewrite fold_left_app. Qed.

Lemma doc_has_apply_set k fs d :
  doc_has k d = true -> doc_has k (apply_set fs d) = true.
Proof.
  revert d. induction fs as [ | [k1 v1] fs IH]; intros d H; [done | ].
  rewrite apply_set_cons. apply IH. rewrite doc_has_set, H.
  apply orb_true_r.
Qed.

Lemma apply_set_keys fs d :
  forallb (fun kv => doc_has kv.1 (apply_set fs d)) fs = true.
Proof.
  revert d. induction fs as [ | [k1 v1] fs IH]; intros d; [done | ].
  cbn [forallb]. rewrite apply_set_cons, IH, andb_true_r. simpl.
  apply doc_has_apply_set. rewrite doc_has_set, String.eqb_refl. done.
Qed.

Lemma apply_set_absorbs k v w gs e :
  forallb (fun kv => doc_has kv.1 e) gs = true ->
  doc_set k v (apply_set gs (doc_set k w e)) = doc_set k v (apply_set gs e).
Proof.
  revert e. induction gs as [ | [k1 v1] gs IH]; intros e H.
  - apply doc_set_overwrite.
  - cbn [forallb] in H. apply andb_true_iff in H as [H1 H]. simpl in H1.
    rewrite !apply_set_cons.
    destruct (String.eqb k1 k) eqn:E.
    + apply String.eqb_eq in E. subst k1. by rewrite doc_set_overwrite.
    + assert (Hne : k1 <> k) by (intros ->; by rewrite String.eqb_refl in E).
      rewrite <- (doc_set_comm k k1 w v1 e (not_eq_sym Hne) H1).
      apply IH. clear -H. induction gs as [ | [k2 v2] gs IH]; [done | ].
      cbn [forallb] in *. apply andb_true_iff in H as [H2 H].
      rewrite (IH H), andb_true_r. simpl in *.
      rewrite doc_has_set, H2. apply orb_true_r.
Qed.

(** A [$set] applied to its own result changes nothing. *)
Lemma apply_set_again fs d : apply_set fs (apply_set fs d) = apply_set fs d.
Proof.
  revert d. induction fs as [ | [k v] gs IH] using rev_ind; intros d; [done | ].
  rewrite !apply_set_snoc.
  rewrite apply_set_absorbs by apply apply_set_keys.
  by rewrite IH.
Qed.

Lemma apply_mod_again md d d' :
  apply_mod md d = Some d' -> apply_mod md d' = Some d'.
Proof.
  unfold apply_mod. destruct (existsb _ md).
  - destruct md as [ | [op [ | | | | | | fields]] [ | ? ?]]; try discriminate.
    destruct (_ && _); [ | discriminate].
    intros [= <-]. by rewrite apply_set_again.
  - destruct (forallb _ md); [ | discriminate].
    intros [= <-]. f_equal.
    assert (Hmd : match doc_get "_id" md with
                  | Some j => if doc_has "_id" md then md
                              else ("_id"%string, j) :: md
                  | None => md
                  end = md).
    { unfold doc_has. by destruct (doc_get "_id" md). }
    destruct (doc_get "_id" d) as [i | ]; [ | done].
    by destruct (doc_has "_id" md) eqn:E.
Qed.

Lemma update_first_ok spec md docs docs' :
  update_first spec md docs = Some (None, docs') ->
  exists pre d d' post,
    docs = pre ++ d :: post
    /\ docs' = pre ++ d' :: post
    /\ forallb (fun x => negb (matches spec x)) pre = true
    /\ matches spec d = true
    /\ apply_mod md d = Some d'
    /\ doc_get "_id" d' = doc_get "_id" d.
Proof.
  revert docs'. induction docs as [ | d r IH]; intros docs'; simpl;
    [discriminate | ].
  destruct (matches spec d) eqn:E.
  - destruct (apply_mod md d) as [d' | ] eqn:Ea; [ | discriminate].
    destruct (option_value_eqb _ _) eqn:Ei; [ | discriminate].
    intros [= <-]. exists [], d, d', r. repeat split; trivial.
    destruct (doc_get "_id" d'), (doc_get "_id" d); try discriminate; trivial.
    simpl in Ei. apply value_eqb_true in Ei. by subst.
  - destruct (update_first spec md r) as [[e0 r'] | ]; [ | discriminate].
    intros [= -> <-].
    destruct (IH r' eq_refl) as (pre & x & x' & post & -> & -> & Hp & Hx & Hm & Hi).
    exists (d :: pre), x, x', post. simpl. by rewrite E.
Qed.

Lemma update_first_at spec md pre d post :
  forallb (fun x => negb (matches spec x)) pre = true ->
  matches spec d = true ->
  apply_mod md d = Some d ->
  update_first spec md (pre ++ d :: post) = Some (None, pre ++ d :: post).
Proof.
  intros Hp Hd Hm. induction pre as [ | x r IH]; simpl in *.
  - by rewrite Hd, Hm, option_value_eqb_refl.
  - apply andb_true_iff in Hp as [Hx Hr].
    destruct (matches spec x); [discriminate | ]. by rewrite IH.
Qed.

Lemma matches_id_only i d d' :
  doc_get "_id" d' = doc_get "_id" d ->
  matches [("_id"%string, i)] d' = matches [("_id"%string, i)] d.
Proof. unfold matches, field_matches. simpl. by intros ->. Qed.

(** Replaying an update addressed by [_id] whose update document sets
    top-level fields or replaces the document: once the handler has
    returned for such a record, it returns again for the same record on a
    server that accepts the write, and no collection changes. *)
Theorem update_by_id_is_idempotent ns id mod_ raw st st1 coll i md :
  _dest_coll ns st = (Ok coll, st) ->
  doc_get "o2" raw = Some (VDoc [("_id"%string, i)]) ->
  doc_get "o" raw = Some (VDoc md) ->
  plain_update md = true ->
  update ns id mod_ raw st = (Ok tt, st1) ->
  healthy (dest st1) = true ->
  exists st2,
    update ns id mod_ raw st1 = (Ok tt, st2)
    /\ colls (dest st2) = colls (dest st1).
Proof.
  intros Hc Ho2 Ho _ H Hh1.
  rewrite (update_eq _ _ _ _ _ _ _ _ Hc Ho2 Ho) in H.
  rewrite (update_eq _ _ _ _ _ _ _ _ (dest_coll_state _ _ st1 _ Hc) Ho2 Ho),
    Collection_write_healthy by done.
  assert (Hd : the_docs coll (next_verdict (dest st1)).2
               = the_docs coll (dest st1)) by apply the_docs_next_verdict.
  pose proof (next_verdict_colls (dest st1)) as Hv.
  unfold Collection_write, srv_write in H.
  destruct (next_verdict (dest st)) as [[ | ] s0]; [discriminate | ].
  unfold srv_update in *. rewrite Hd.
  destruct (update_first [("_id"%string, i)] md (the_docs coll s0))
    as [[[e | ] docs'] | ] eqn:E; try discriminate.
  - injection H as <-. simpl in *. rewrite the_docs_set_docs in *.
    destruct (update_first_ok _ _ _ _ E)
      as (pre & d & d' & post & _ & -> & Hp & Hm & Ha & Hi).
    rewrite update_first_at; trivial.
    + eexists. split; [done | ]. simpl. rewrite Hv. apply insert_insert_eq.
    + by rewrite (matches_id_only _ _ _ Hi).
    + by apply (apply_mod_again _ d).
  - injection H as <-. simpl in *. rewrite E. by eexists.
Qed.

Lemma update_by_id_is_idempotent_witness :
  let raw := [("o2"%string, VDoc [("_id"%string, VObjectId 6)]);
              ("o"%string,
               VDoc [("$set"%string,
                      VDoc [("content"%string, VStr "newContent");
                            ("seen"%string, VBool true)])])] in
  let st := (process (insert_entry 6 1318432261) sample).2 in
  let st1 := (update "mydb.tweets" (VObjectId 6) VNone raw st).2 in
  the_docs ("mydb"%string, "tweets"%string) (dest st1)
  <> the_docs ("mydb"%string, "tweets"%string) (dest st)
  /\ exists st2,
       update "mydb.tweets" (VObjectId 6) VNone raw st1 = (Ok tt, st2)
       /\ colls (dest st2) = colls (dest st1).
Proof.
  cbv zeta. split; [by vm_compute | ].
  apply (update_by_id_is_idempotent _ _ _ _
           (process (insert_entry 6 1318432261) sample).2 _
           ("mydb"%string, "tweets"%string) (VObjectId 6)
           [("$set"%string,
             VDoc [("content"%string, VStr "newContent");
                   ("seen"%string, VBool true)])]); reflexivity.
Defined.

(** ** More on the checkpoint *)

Lemma upsert_value_overwrite lid t1 t2 docs :
  upsert_value lid t2 (upsert_value lid t1 docs) = upsert_value lid t2 docs.
Proof.
  induction docs as [ | d r IH]; simpl.
  - unfold same_id. simpl. by rewrite String.eqb_refl.
  - destruct (same_id (VStr lid) d) eqn:E; simpl.
    + by rewrite same_id_set_value, E, doc_set_overwrite.
    + by rewrite E, IH.
Qed.

(** Of two saves one after the other, on a server that accepts the writes,
    the later one wins: the collections are those the later save alone
    would have left, and the stored checkpoint is the later timestamp. *)
Theorem later_save_replaces_earlier (st : state) (t1 t2 : value) :
  healthy (dest st) = true ->
  let both := (_update_lastts (set_ts t2 (_update_lastts (set_ts t1 st)).2)).2 in
  let last := (_update_lastts (set_ts t2 st)).2 in
  colls (dest both) = colls (dest last)
  /\ stored_checkpoint both = Some t2.
Proof.
  intros Hh. cbv zeta. rewrite !update_lastts_eq. simpl.
  pose proof (after_save_healthy (set_ts t1 st) Hh) as Hh1.
  destruct (next_verdict_healthy _ Hh) as [Hv _].
  destruct (next_verdict_healthy _ Hh1) as [Hv1 _].
  split.
  - unfold after_save at 1. simpl. rewrite Hv1. simpl.
    rewrite the_docs_next_verdict, next_verdict_colls.
    unfold after_save. simpl. rewrite Hv. simpl.
    rewrite the_docs_set_docs, upsert_value_overwrite.
    apply insert_insert_eq.
  - apply (stored_after_save
             (set_ts t2 (set_dest (after_save (set_ts t1 st)) (set_ts t1 st)))).
    apply Hv1.
Qed.

Lemma later_save_replaces_earlier_witness :
  let t1 := VTimestamp 1318432261 1 in
  let t2 := VTimestamp 1318432339 1 in
  let both :=
    (_update_lastts (set_ts t2 (_update_lastts (set_ts t1 sample)).2)).2 in
  colls (dest both) = colls (dest (_update_lastts (set_ts t2 sample)).2)
  /\ stored_checkpoint both = Some t2.
Proof. cbv zeta. apply later_save_replaces_earlier. reflexivity. Defined.

Lemma append_length (a b : string) :
  String.length (String.append a b)
  = (String.length a + String.length b)%nat.
Proof. induction a as [ | c a IH]; simpl; [done | by rewrite IH]. Qed.

Lemma append_inj_r (s a b : string) :
  String.append a s = String.append b s -> a = b.
Proof.
  revert b. induction a as [ | c a IH]; intros [ | c' b] H.
  - done.
  - apply (f_equal String.length) in H.
    rewrite !append_length in H. simpl in H. lia.
  - apply (f_equal String.length) in H.
    rewrite !append_length in H. simpl in H. lia.
  - injection H as -> H. by rewrite (IH _ H).
Qed.

Lemma same_id_unique a b d :
  same_id (VStr a) d = true -> same_id (VStr b) d = true -> a = b.
Proof.
  unfold same_id. destruct (doc_get "_id" d) as [j | ]; [ | discriminate].
  intros Ha Hb. apply value_eqb_true in Ha, Hb. congruence.
Qed.

Lemma find_upsert_other a b t docs :
  a <> b ->
  List.find (same_id (VStr b)) (upsert_value a t docs)
  = List.find (same_id (VStr b)) docs.
Proof.
  intros Hne. induction docs as [ | d r IH]; simpl.
  - unfold same_id. simpl.
    destruct (String.eqb a b) eqn:E; [ | done].
    apply String.eqb_eq in E. contradiction.
  - destruct (same_id (VStr a) d) eqn:Ea; simpl.
    + rewrite same_id_set_value.
      destruct (same_id (VStr b) d) eqn:Eb; [ | done].
      destruct Hne. by apply (same_id_unique _ _ d).
    + by rewrite IH.
Qed.

(** Replayers of different replica sets in front of one destination keep
    their checkpoints apart: what the replayer of one replica set loads is
    the same before and after a save by the replayer of another. *)
Theorem checkpoints_of_replica_sets_are_separate
    (rs rs' : string) (st other : state) :
  rs <> rs' ->
  _lastts_id st = String.append rs "-lastts" ->
  _lastts_id other = String.append rs' "-lastts" ->
  dest other = dest st ->
  (_get_lastts (set_dest (dest (_update_lastts st).2) other)).1
  = (_get_lastts other).1.
Proof.
  intros Hne Hid Hid' Hd.
  assert (Hlid : _lastts_id st <> _lastts_id other).
  { rewrite Hid, Hid'. intros H. by apply append_inj_r in H. }
  rewrite update_lastts_eq, !get_lastts_eq, !stored_checkpoint_find. simpl.
  rewrite Hd. unfold after_save.
  destruct (next_verdict (dest st)).1; simpl.
  - by rewrite the_docs_next_verdict.
  - rewrite the_docs_set_docs, find_upsert_other by done.
    by rewrite the_docs_next_verdict.
Qed.

Lemma checkpoints_of_replica_sets_are_separate_witness :
  let other := (__init__ "othersource" (dest sample) 1318432400).2 in
  (_get_lastts (set_dest (dest (_update_lastts sample).2) other)).1
  = (_get_lastts other).1.
Proof.
  cbv zeta.
  apply (checkpoints_of_replica_sets_are_separate "testsource" "othersource");
    [discriminate | reflexivity | reflexivity | reflexivity].
Defined.

(** A settings document with the replayer's [_id] and no [value] makes
    [_get_lastts] raise [KeyError], and with it the constructor; a save
    that the server accepts gives the document its [value], and the load
    after it returns. *)
Theorem checkpoint_without_value_is_a_key_error (rs : string) (st : state) (o : doc) :
  _lastts_id st = String.append rs "-lastts" ->
  List.find (same_id (VStr (_lastts_id st))) (the_docs settings (dest st))
  = Some o ->
  doc_get "value" o = None ->
  _get_lastts st = (Raise (KeyError "value"), st)
  /\ (forall now, (__init__ rs (dest st) now).1 = Raise (KeyError "value"))
  /\ (healthy (dest st) = true ->
      (_get_lastts (_update_lastts st).2).1 = Ok (ts st)).
Proof.
  intros Hid Hfind Hval.
  assert (Hg : forall x, _lastts_id x = _lastts_id st -> dest x = dest st ->
                 _get_lastts x = (Raise (KeyError "value"), x)).
  { intros x Hx Hd. rewrite get_lastts_eq, stored_checkpoint_find.
    by rewrite Hx, Hd, Hfind, Hval. }
  split; [by apply Hg | ]. split.
  - intros now. unfold __init__. unfold bind at 1.
    rewrite Hg; [done | by rewrite Hid | done].
  - intros Hh. rewrite update_lastts_eq. cbn [fst snd].
    rewrite get_lastts_eq.
    rewrite stored_after_save; [done | by apply next_verdict_healthy].
Qed.

Lemma checkpoint_without_value_is_a_key_error_witness :
  let server :=
    set_docs settings [[("_id"%string, VStr "testsource-lastts")]]
      empty_server in
  let st := set_dest server sample in
  _get_lastts st = (Raise (KeyError "value"), st)
  /\ (forall now,
        (__init__ "testsource" (dest st) now).1 = Raise (KeyError "value"))
  /\ (healthy (dest st) = true ->
      (_get_lastts (_update_lastts st).2).1 = Ok (ts st)).
Proof.
  cbv zeta.
  apply (checkpoint_without_value_is_a_key_error "testsource" _
           [("_id"%string, VStr "testsource-lastts")]); reflexivity.
Defined.

(** ** Constructing a replayer *)

Lemma init_eq rs server now :
  __init__ rs server now
  = let st0 := {| _lastts_id := String.append rs "-lastts"; ts := VNone;
                  _replay_count := 0; dest := server; clock := now;
                  debug_log := [] |} in
    match (_get_lastts st0).1 with
    | Ok v => (Ok tt, set_ts v st0)
    | Raise e => (Raise e, st0)
    end.
Proof.
  unfold __init__. cbv zeta. unfold bind at 1. rewrite get_lastts_eq.
  cbn [fst snd].
  destruct (stored_checkpoint _); [done | ]. by destruct (List.find _ _).
Qed.

(** A replayer constructed in front of the destination that another one,
    for the same replica set, has saved its checkpoint in, starts from that
    checkpoint, with a count of zero; constructing it writes nothing to the
    destination. *)
Theorem new_replayer_resumes_from_the_saved_checkpoint
    (rs : string) (st : state) (now : Z) :
  _lastts_id st = String.append rs "-lastts" ->
  healthy (dest st) = true ->
  exists st',
    __init__ rs (dest (_update_lastts st).2) now = (Ok tt, st')
    /\ ts st' = ts st
    /\ _replay_count st' = 0
    /\ dest st' = dest (_update_lastts st).2
    /\ _lastts_id st' = _lastts_id st.
Proof.
  intros Hid Hh. rewrite init_eq. cbv zeta.
  rewrite update_lastts_eq. cbn [fst snd]. rewrite get_lastts_eq.
  cbn [fst snd].
  assert (Hs : stored_checkpoint
                 {| _lastts_id := String.append rs "-lastts"; ts := VNone;
                    _replay_count := 0;
                    dest := dest (set_dest (after_save st) st);
                    clock := now; debug_log := [] |} = Some (ts st)).
  { rewrite <- (stored_after_save st) by (by apply next_verdict_healthy).
    by apply stored_checkpoint_same. }
  rewrite Hs. eexists. by repeat split.
Qed.

Lemma new_replayer_resumes_from_the_saved_checkpoint_witness :
  let st := (process (insert_entry 16 1318432375) sample).2 in
  exists st',
    __init__ "testsource" (dest (_update_lastts st).2) 1318432500
    = (Ok tt, st')
    /\ ts st' = ts st
    /\ _replay_count st' = 0
    /\ dest st' = dest (_update_lastts st).2
    /\ _lastts_id st' = _lastts_id st.
Proof.
  cbv zeta. apply new_replayer_resumes_from_the_saved_checkpoint; reflexivity.
Defined.

(** In front of a destination without a settings document for the replica
    set, the constructor returns a replayer that has no timestamp and a
    count of zero, and leaves the destination as it is; on that replayer
    [print_replication_info] raises [AttributeError] and logs nothing. *)
Theorem first_replayer_has_no_timestamp (rs : string) (server : mongod) (now : Z) :
  List.find (same_id (VStr (String.append rs "-lastts")))
    (the_docs settings server) = None ->
  exists st',
    __init__ rs server now = (Ok tt, st')
    /\ ts st' = VNone
    /\ _replay_count st' = 0
    /\ dest st' = server
    /\ print_replication_info st' = (Raise AttributeError, st').
Proof.
  intros Hnone. rewrite init_eq. cbv zeta.
  rewrite get_lastts_eq, stored_checkpoint_find. cbn [fst snd].
  cbn [_lastts_id dest]. rewrite Hnone.
  eexists. by repeat split.
Qed.

Lemma first_replayer_has_no_timestamp_witness :
  exists st',
    __init__ "testsource" empty_server 1318432400 = (Ok tt, st')
    /\ ts st' = VNone
    /\ _replay_count st' = 0
    /\ dest st' = empty_server
    /\ print_replication_info st' = (Raise AttributeError, st').
Proof. apply first_replayer_has_no_timestamp. reflexivity. Defined.

(** ** What a handler leaves alone *)

(** Each of the three handlers, whatever the record and the server's
    answer: of the replayer it changes nothing but the destination, of the
    destination no collection but the one its namespace names, and when it
    raises it has changed no collection at all. *)
Theorem handlers_change_only_their_collection ns id v raw st coll :
  _dest_coll ns st = (Ok coll, st) ->
  Forall (fun r : outcome unit * state =>
            r.2 = set_dest (dest r.2) st
            /\ (forall e, r.1 = Raise e -> colls (dest r.2) = colls (dest st))
            /\ (forall c, c <> coll ->
                          colls (dest r.2) !! c = colls (dest st) !! c))
    [insert ns id v raw st; update ns id v raw st; delete ns id raw st].
Proof.
  intros Hc.
  pose proof (insert_effect ns id v raw st coll Hc) as (Hi & _ & Hie & Hif).
  pose proof (update_effect ns id v raw st coll Hc) as (Hu & _ & Hue & Huf).
  pose proof (delete_effect ns id raw st coll Hc) as (Hd & _ & Hde & Hdf).
  repeat constructor; trivial.
Qed.

Lemma handlers_change_only_their_collection_witness :
  let c := update_entry 6 1318432339 in
  let st := (process (insert_entry 6 1318432261) sample).2 in
  Forall (fun r : outcome unit * state =>
            r.2 = set_dest (dest r.2) st
            /\ (forall e, r.1 = Raise e -> colls (dest r.2) = colls (dest st))
            /\ (forall k, k <> ("mydb"%string, "tweets"%string) ->
                          colls (dest r.2) !! k = colls (dest st) !! k))
    [insert (c_ns c) (c_id c) VNone (c_raw c) st;
     update (c_ns c) (c_id c) VNone (c_raw c) st;
     delete (c_ns c) (c_id c) (c_raw c) st].
Proof.
  cbv zeta. apply handlers_change_only_their_collection. reflexivity.
Defined.
